(** * NASA near-Earth-object pipeline: fetch, normalise, collect, store

    A shallow embedding of [data_extraction.py] (class [NASADataExtractor])
    and [database_setup.py] (class [DatabaseManager]), with the properties
    of the pipeline stated and proved over it.

    Python objects are modelled by value.  Mutation of [self] is explicit
    state passing; an exception is a [Raise] result that leaves the state as
    mutated so far.  The network is an oracle that maps the history of the
    run and the requested URL to the outcome of [requests.get]. *)

From Stdlib Require Import ZArith QArith List String Ascii Bool Lia.
Import ListNotations.
Open Scope string_scope.
Open Scope Z_scope.

Set Implicit Arguments.
Set Warnings "-register-all".

(** ** Exceptions and results *)

Inductive exn : Type :=
| KeyError (key : string)
| TypeError
| ValueError
| AttributeError
| OverflowError
| OperationalError
| ProgrammingError.

Inductive result (A : Type) : Type :=
| Ok (a : A)
| Raise (e : exn).

Arguments Ok {A} a.
Arguments Raise {A} e.

Definition is_ok {A} (r : result A) : bool :=
  match r with Ok _ => true | Raise _ => false end.

Definition rbind {A B} (r : result A) (k : A -> result B) : result B :=
  match r with Ok a => k a | Raise e => Raise e end.

Declare Scope result_scope.
Delimit Scope result_scope with result.
Notation "x <- e ;; k" := (rbind e (fun x => k))
  (at level 61, e at next level, right associativity) : result_scope.

(** ** The builtins and configuration the source imports

    [float] is Python's float type; the four conversions are the parts of
    the builtins [float(...)] and [int(...)] that depend on the float format
    and on number syntax.  They are kept abstract: nothing below depends on
    how a float is represented. *)

Class PyBuiltins : Type := {
  float : Type;
  float_le : float -> float -> Prop;        (* [x <= y] on floats *)
  float_is_zero : float -> bool;            (* [x == 0.0] *)
  float_of_int : Z -> result float;         (* [float(n)], OverflowError when too large *)
  float_of_str : string -> result float;    (* [float(s)], ValueError when not a number *)
  int_of_float : float -> result Z;         (* [int(x)], fails on nan and inf *)
  int_of_str : string -> result Z           (* [int(s)], ValueError when not an integer *)
}.

(** The module [config] ([from config import ...]) is not part of the
    sources; its four constants are parameters. *)

Class Config : Type := {
  NASA_API_KEY : string;
  BASE_URL : string;
  TARGET_RECORDS : Z;
  DATABASE_NAME : string
}.

Section Pipeline.

Context {builtins : PyBuiltins} {config : Config}.

(** ** Decoded JSON values (what [response.json()] returns) *)

Inductive value : Type :=
| VNone
| VBool (b : bool)
| VInt (z : Z)
| VFloat (f : float)
| VStr (s : string)
| VList (l : list value)
| VDict (d : list (string * value)).   (* items in insertion order *)

Fixpoint lookup (k : string) (d : list (string * value)) : option value :=
  match d with
  | [] => None
  | (k', v) :: d' => if String.eqb k k' then Some v else lookup k d'
  end.

(** [v[k]] for a string key [k]. *)
Definition getitem (v : value) (k : string) : result value :=
  match v with
  | VDict d => match lookup k d with Some x => Ok x | None => Raise (KeyError k) end
  | _ => Raise TypeError
  end.

(** [v.get(k, default)]. *)
Definition dict_get (v : value) (k : string) (default : value) : result value :=
  match v with
  | VDict d => match lookup k d with Some x => Ok x | None => Ok default end
  | _ => Raise AttributeError
  end.

(** [v.items()]. *)
Definition items (v : value) : result (list (string * value)) :=
  match v with
  | VDict d => Ok d
  | _ => Raise AttributeError
  end.

Fixpoint chars (s : string) : list value :=
  match s with
  | EmptyString => []
  | String c s' => VStr (String c EmptyString) :: chars s'
  end.

(** [for x in v]: lists yield their elements, dicts their keys, strings
    their characters; nothing else is iterable. *)
Definition iter (v : value) : result (list value) :=
  match v with
  | VList l => Ok l
  | VDict d => Ok (map (fun kv => VStr (fst kv)) d)
  | VStr s => Ok (chars s)
  | _ => Raise TypeError
  end.

(** [int(v)]. *)
Definition py_int (v : value) : result Z :=
  match v with
  | VInt z => Ok z
  | VBool b => Ok (if b then 1 else 0)
  | VFloat f => int_of_float f
  | VStr s => int_of_str s
  | _ => Raise TypeError
  end.

(** [float(v)]. *)
Definition py_float (v : value) : result float :=
  match v with
  | VFloat f => Ok f
  | VInt z => float_of_int z
  | VBool b => float_of_int (if b then 1 else 0)
  | VStr s => float_of_str s
  | _ => Raise TypeError
  end.

(** [bool(v)], the test of [if neo_data:]. *)
Definition truthy (v : value) : bool :=
  match v with
  | VNone => false
  | VBool b => b
  | VInt z => negb (z =? 0)
  | VFloat f => negb (float_is_zero f)
  | VStr s => negb (String.eqb s "")
  | VList l => match l with [] => false | _ => true end
  | VDict d => match d with [] => false | _ => true end
  end.

(** ** The two record types built by the normalizer *)

Record asteroid_info : Type := {
  id : Z;
  name : value;
  absolute_magnitude_h : float;
  estimated_diameter_min_km : float;
  estimated_diameter_max_km : float;
  is_potentially_hazardous_asteroid : value
}.

Record approach_info : Type := {
  neo_reference_id : Z;
  close_approach_date : value;
  relative_velocity_kmph : float;
  astronomical : float;
  miss_distance_km : float;
  miss_distance_lunar : float;
  orbiting_body : value
}.

(** ** The extractor object *)

Record NASADataExtractor : Type := {
  api_key : string;
  base_url : string;
  asteroid_data : list asteroid_info;
  approach_data : list approach_info
}.

(** [NASADataExtractor.__init__]. *)
Definition init : NASADataExtractor :=
  {| api_key := NASA_API_KEY;
     base_url := BASE_URL;
     asteroid_data := [];
     approach_data := [] |}.

(** A method body: it may mutate [self] and may raise. *)
Definition method (A : Type) : Type :=
  NASADataExtractor -> NASADataExtractor * result A.

Definition ret {A} (a : A) : method A := fun self => (self, Ok a).

Definition lift {A} (r : result A) : method A := fun self => (self, r).

Definition bind {A B} (m : method A) (k : A -> method B) : method B :=
  fun self =>
    match m self with
    | (self', Ok a) => k a self'
    | (self', Raise e) => (self', Raise e)
    end.

Declare Scope method_scope.
Delimit Scope method_scope with method.
Notation "x <- e ;; k" := (bind e (fun x => k))
  (at level 61, e at next level, right associativity) : method_scope.
Notation "e ;;; k" := (bind e (fun _ => k))
  (at level 61, right associativity) : method_scope.

(** [for x in xs: body x]. *)
Fixpoint for_each {A} (xs : list A) (body : A -> method unit) : method unit :=
  match xs with
  | [] => ret tt
  | x :: xs' => bind (body x) (fun _ => for_each xs' body)
  end.

(** ** Record Normalizer: [extract_asteroid_fields] *)

(** The dict display bound to [asteroid_info] (source lines 32-39); the
    entries are evaluated in the order they are written. *)
Definition asteroid_info_of (asteroid : value) : result asteroid_info :=
  (v_id <- getitem asteroid "id" ;;
   i <- py_int v_id ;;
   nm <- getitem asteroid "name" ;;
   v_h <- dict_get asteroid "absolute_magnitude_h" (VInt 0) ;;
   h <- py_float v_h ;;
   ed <- getitem asteroid "estimated_diameter" ;;
   km <- getitem ed "kilometers" ;;
   v_min <- getitem km "estimated_diameter_min" ;;
   dmin <- py_float v_min ;;
   ed' <- getitem asteroid "estimated_diameter" ;;
   km' <- getitem ed' "kilometers" ;;
   v_max <- getitem km' "estimated_diameter_max" ;;
   dmax <- py_float v_max ;;
   hz <- getitem asteroid "is_potentially_hazardous_asteroid" ;;
   Ok {| id := i;
         name := nm;
         absolute_magnitude_h := h;
         estimated_diameter_min_km := dmin;
         estimated_diameter_max_km := dmax;
         is_potentially_hazardous_asteroid := hz |})%result.

(** The dict display bound to [approach_info] (source lines 43-51). *)
Definition approach_info_of (asteroid approach : value) : result approach_info :=
  (v_id <- getitem asteroid "id" ;;
   i <- py_int v_id ;;
   dt <- getitem approach "close_approach_date" ;;
   rv <- getitem approach "relative_velocity" ;;
   v_kph <- getitem rv "kilometers_per_hour" ;;
   kph <- py_float v_kph ;;
   md <- getitem approach "miss_distance" ;;
   v_au <- getitem md "astronomical" ;;
   au <- py_float v_au ;;
   md' <- getitem approach "miss_distance" ;;
   v_km <- getitem md' "kilometers" ;;
   km <- py_float v_km ;;
   md'' <- getitem approach "miss_distance" ;;
   v_ld <- getitem md'' "lunar" ;;
   ld <- py_float v_ld ;;
   ob <- getitem approach "orbiting_body" ;;
   Ok {| neo_reference_id := i;
         close_approach_date := dt;
         relative_velocity_kmph := kph;
         astronomical := au;
         miss_distance_km := km;
         miss_distance_lunar := ld;
         orbiting_body := ob |})%result.

(** [self.asteroid_data.append(a); self.approach_data.append(p)]. *)
Definition append_both (a : asteroid_info) (p : approach_info) : method unit :=
  fun self =>
    ({| api_key := api_key self;
        base_url := base_url self;
        asteroid_data := (asteroid_data self ++ [a])%list;
        approach_data := (approach_data self ++ [p])%list |}, Ok tt).

(** The body of [for approach in asteroid['close_approach_data']]. *)
Definition approach_body (asteroid : value) (info : asteroid_info)
    (approach : value) : method unit :=
  (p <- lift (approach_info_of asteroid approach) ;;
   append_both info p)%method.

(** The body of [for asteroid in asteroids]. *)
Definition asteroid_body (asteroid : value) : method unit :=
  (info <- lift (asteroid_info_of asteroid) ;;
   cad <- lift (rbind (getitem asteroid "close_approach_data") iter) ;;
   for_each cad (approach_body asteroid info))%method.

(** The body of [for date, asteroids in ....items()]. *)
Definition date_body (entry : string * value) : method unit :=
  (asteroids <- lift (iter (snd entry)) ;;
   for_each asteroids asteroid_body)%method.

Definition extract_asteroid_fields (neo_data : value) : method unit :=
  (dates <- lift (rbind (getitem neo_data "near_earth_objects") items) ;;
   for_each dates date_body)%method.

(** ** Calendar dates ([datetime], [timedelta])

    A [datetime] at midnight is its proleptic Gregorian ordinal (day 1 is
    0001-01-01), as [date.toordinal] gives it; adding [timedelta(days=k)]
    adds [k].  [ymd2ord] and [ord2ymd] follow the functions of the same
    names in Python's [datetime] module. *)

Definition datetime : Type := Z.

Definition DAYS_IN_MONTH : list Z :=
  [-1; 31; 28; 31; 30; 31; 30; 31; 31; 30; 31; 30; 31].

Definition DAYS_BEFORE_MONTH : list Z :=
  [-1; 0; 31; 59; 90; 120; 151; 181; 212; 243; 273; 304; 334].

Definition is_leap (year : Z) : bool :=
  (year mod 4 =? 0) && (negb (year mod 100 =? 0) || (year mod 400 =? 0)).

Definition days_before_year (year : Z) : Z :=
  let y := year - 1 in
  y * 365 + y / 4 - y / 100 + y / 400.

Definition days_before_month (year month : Z) : Z :=
  nth (Z.to_nat month) DAYS_BEFORE_MONTH 0
  + (if (month >? 2) && is_leap year then 1 else 0).

Definition ymd2ord (year month day : Z) : datetime :=
  days_before_year year + days_before_month year month + day.

Definition DI400Y : Z := days_before_year 401.
Definition DI100Y : Z := days_before_year 101.
Definition DI4Y : Z := days_before_year 5.

Definition ord2ymd (ordinal : datetime) : Z * Z * Z :=
  let n := ordinal - 1 in
  let n400 := n / DI400Y in
  let n := n mod DI400Y in
  let year := n400 * 400 + 1 in
  let n100 := n / DI100Y in
  let n := n mod DI100Y in
  let n4 := n / DI4Y in
  let n := n mod DI4Y in
  let n1 := n / 365 in
  let n := n mod 365 in
  let year := year + n100 * 100 + n4 * 4 + n1 in
  if (n1 =? 4) || (n100 =? 4) then (year - 1, 12, 31)
  else
    let leapyear := (n1 =? 3) && (negb (n4 =? 24) || (n100 =? 3)) in
    let month := Z.shiftr (n + 50) 5 in
    let preceding :=
      nth (Z.to_nat month) DAYS_BEFORE_MONTH 0
      + (if (month >? 2) && leapyear then 1 else 0) in
    if preceding >? n then
      let month := month - 1 in
      let preceding :=
        preceding
        - (nth (Z.to_nat month) DAYS_IN_MONTH 0
           + (if (month =? 2) && leapyear then 1 else 0)) in
      (year, month, n - preceding + 1)
    else (year, month, n - preceding + 1).

(** [d.year]. *)
Definition year (d : datetime) : Z := fst (fst (ord2ymd d)).

(** [d + timedelta(days=k)]. *)
Definition add_days (d : datetime) (k : Z) : datetime := d + k.

(** [datetime.strptime("2024-01-01", "%Y-%m-%d")]. *)
Definition first_start_date : datetime := ymd2ord 2024 1 1.

Definition digit (z : Z) : ascii := ascii_of_nat (48 + Z.to_nat (z mod 10)).

(** [z] written with [width] decimal digits, zero padded. *)
Fixpoint zero_padded (width : nat) (z : Z) : string :=
  match width with
  | O => ""
  | S w => zero_padded w (z / 10) ++ String (digit z) ""
  end.

(** [d.strftime("%Y-%m-%d")] (years 1000 to 9999). *)
Definition strftime (d : datetime) : string :=
  let '(y, m, dd) := ord2ymd d in
  zero_padded 4 y ++ "-" ++ zero_padded 2 m ++ "-" ++ zero_padded 2 dd.

(** ** The outside world: HTTP requests and sleeping

    Printing is not modelled: no property below is about the text on
    standard output. *)

Inductive event : Type :=
| Get (url : string)        (* [requests.get(url)] *)
| Sleep (seconds : Z).      (* [time.sleep(seconds)] *)

(** What [requests.get] hands back: [json_body] is what [response.json()]
    returns, [None] when the body does not parse (the method then raises
    [requests.exceptions.JSONDecodeError], a [RequestException]). *)
Record response : Type := {
  status_code : Z;
  json_body : option value
}.

Inductive outcome : Type :=
| RequestFailed               (* [requests.get] raised a [RequestException] *)
| Responded (r : response).

(** The network answers a request from the history of the run so far. *)
Definition network : Type := list event -> string -> outcome.

(** [response.raise_for_status()]: [true] when it raises [HTTPError]. *)
Definition raise_for_status (r : response) : bool :=
  if (400 <=? status_code r) && (status_code r <? 500) then true
  else if (500 <=? status_code r) && (status_code r <? 600) then true
  else false.

Definition request_url (self : NASADataExtractor) (start_date end_date : string)
  : string :=
  base_url self ++ "?start_date=" ++ start_date ++ "&end_date=" ++ end_date
  ++ "&api_key=" ++ api_key self.

(** ** Fetch Client: [fetch_neo_data]

    Returns the new history and the value handed to the caller; Python's
    [None] is [VNone]. *)
Definition fetch_neo_data (net : network) (self : NASADataExtractor)
    (start_date end_date : string) (history : list event)
  : list event * value :=
  let url := request_url self start_date end_date in
  let history' := (history ++ [Get url])%list in
  match net history url with
  | RequestFailed => (history', VNone)
  | Responded r =>
      if raise_for_status r then (history', VNone)
      else match json_body r with
           | Some v => (history', v)
           | None => (history', VNone)
           end
  end.

(** ** Collection Driver: [collect_data] *)

(** [l[:n]], negative [n] counting from the end. *)
Definition slice_to {A} (l : list A) (n : Z) : list A :=
  if 0 <=? n then firstn (Z.to_nat n) l
  else firstn (Z.to_nat (Z.of_nat (List.length l) + n)) l.

(** The local variables of [collect_data] when its loop is left. *)
Record locals : Type := {
  start_date : datetime;
  total_records : Z
}.

(** What a run leaves behind: the history, the extractor and what the
    method returned or raised. *)
Record run (A : Type) : Type := {
  history_of : list event;
  self_of : NASADataExtractor;
  returned : result A
}.

(** One round of the [while] loop of [collect_data], up to and including
    [start_date = end_date + timedelta(days=1)]: the new history, the
    extractor, and the new locals or the exception that left the loop. *)
Definition loop_body (net : network) (vars : locals)
    (self : NASADataExtractor) (history : list event) : run locals :=
  let end_date := add_days (start_date vars) 6 in
  let start_str := strftime (start_date vars) in
  let end_str := strftime end_date in
  let (history1, neo_data) :=
    fetch_neo_data net self start_str end_str history in
  let next := add_days end_date 1 in
  if truthy neo_data then
    match extract_asteroid_fields neo_data self with
    | (self', Raise e) =>
        {| history_of := history1; self_of := self'; returned := Raise e |}
    | (self', Ok _) =>
        let total := Z.of_nat (List.length (asteroid_data self')) in
        {| history_of := (history1 ++ [Sleep 1])%list;
           self_of := self';
           returned := Ok {| start_date := next; total_records := total |} |}
    end
  else
    {| history_of := (history1 ++ [Sleep 5])%list;
       self_of := self;
       returned := Ok {| start_date := next;
                         total_records := total_records vars |} |}.

(** The [while] loop of [collect_data], with its [break].  [fuel] bounds
    the number of rounds; [None] means the bound was too small. *)
Fixpoint collect_loop (fuel : nat) (net : network) (vars : locals)
    (self : NASADataExtractor) (history : list event) : option (run locals) :=
  if total_records vars <? TARGET_RECORDS then
    match fuel with
    | O => None
    | S fuel' =>
        let round := loop_body net vars self history in
        match returned round with
        | Raise e => Some round
        | Ok vars' =>
            if year (start_date vars') >? 2025 then Some round
            else collect_loop fuel' net vars' (self_of round) (history_of round)
        end
    end
  else Some {| history_of := history; self_of := self; returned := Ok vars |}.

(** The two slice assignments after the loop. *)
Definition trim (self : NASADataExtractor) : NASADataExtractor :=
  {| api_key := api_key self;
     base_url := base_url self;
     asteroid_data := slice_to (asteroid_data self) TARGET_RECORDS;
     approach_data := slice_to (approach_data self) TARGET_RECORDS |}.

(** The locals when the loop is entered. *)
Definition initial_locals : locals :=
  {| start_date := first_start_date; total_records := 0 |}.

Definition collect_data (fuel : nat) (net : network)
    (self : NASADataExtractor) (history : list event)
  : option (run (list asteroid_info * list approach_info)) :=
  match collect_loop fuel net initial_locals self history with
  | None => None
  | Some r =>
      match returned r with
      | Raise e =>
          Some {| history_of := history_of r; self_of := self_of r;
                  returned := Raise e |}
      | Ok _ =>
          let self' := trim (self_of r) in
          Some {| history_of := history_of r; self_of := self';
                  returned := Ok (asteroid_data self', approach_data self') |}
      end
  end.

(** Enough fuel for any run: the windows from 2024-01-01 to the end of 2025. *)
Definition enough : nat := 105.

(** ** Store Writer: [DatabaseManager]

    The store is the committed content of the SQLite file: each of the two
    tables is absent ([None]) or holds its rows in insertion order.  A row
    is kept as the tuple of values bound to the [?] placeholders. *)

Inductive sql_value : Type :=
| SqlNull
| SqlInteger (z : Z)
| SqlReal (f : float)
| SqlText (s : string).

Definition row : Type := list sql_value.

Record database : Type := {
  asteroids : option (list row);
  close_approach : option (list row)
}.

(** How [sqlite3] binds a Python value to a placeholder: [None], [int]
    (64-bit), [float] and [str] are supported, lists and dicts are not. *)
Definition adapt (v : value) : result sql_value :=
  match v with
  | VNone => Ok SqlNull
  | VBool b => Ok (SqlInteger (if b then 1 else 0))
  | VInt z =>
      if (- 2 ^ 63 <=? z) && (z <? 2 ^ 63) then Ok (SqlInteger z)
      else Raise OverflowError
  | VFloat f => Ok (SqlReal f)
  | VStr s => Ok (SqlText s)
  | VList _ | VDict _ => Raise ProgrammingError
  end.

Fixpoint bind_params (params : list value) : result row :=
  match params with
  | [] => Ok []
  | v :: params' =>
      (x <- adapt v ;; xs <- bind_params params' ;; Ok (x :: xs))%result
  end.

(** The parameter tuple of [INSERT INTO asteroids VALUES (?, ?, ?, ?, ?, ?)]. *)
Definition asteroid_params (asteroid : asteroid_info) : list value :=
  [ VInt (id asteroid);
    name asteroid;
    VFloat (absolute_magnitude_h asteroid);
    VFloat (estimated_diameter_min_km asteroid);
    VFloat (estimated_diameter_max_km asteroid);
    is_potentially_hazardous_asteroid asteroid ].

(** The parameter tuple of [INSERT INTO close_approach VALUES (?, ..., ?)]. *)
Definition approach_params (approach : approach_info) : list value :=
  [ VInt (neo_reference_id approach);
    close_approach_date approach;
    VFloat (relative_velocity_kmph approach);
    VFloat (astronomical approach);
    VFloat (miss_distance_km approach);
    VFloat (miss_distance_lunar approach);
    orbiting_body approach ].

(** One [cursor.execute('INSERT INTO t VALUES (...)', params)]: the
    statement is prepared against the table, then the parameters are bound
    and the row is added. *)
Definition execute_insert (table : option (list row)) (params : list value)
  : result (option (list row)) :=
  match table with
  | None => Raise OperationalError
  | Some rows => (r <- bind_params params ;; Ok (Some (rows ++ [r])%list))%result
  end.

(** [for record in records: cursor.execute(..., params_of record)]. *)
Fixpoint insert_all {A} (params_of : A -> list value) (records : list A)
    (table : option (list row)) : result (option (list row)) :=
  match records with
  | [] => Ok table
  | record :: records' =>
      (table' <- execute_insert table (params_of record) ;;
       insert_all params_of records' table')%result
  end.

(** [CREATE TABLE IF NOT EXISTS] *)
Definition create_if_not_exists (table : option (list row)) : option (list row) :=
  match table with
  | None => Some []
  | Some rows => Some rows
  end.

Definition create_tables (db : database) : database :=
  {| asteroids := create_if_not_exists (asteroids db);
     close_approach := create_if_not_exists (close_approach db) |}.

(** [insert_data]: both loops run in one transaction, committed at the end;
    when an [execute] raises nothing is committed. *)
Definition insert_data (asteroid_data : list asteroid_info)
    (approach_data : list approach_info) (db : database)
  : database * result unit :=
  match (a <- insert_all asteroid_params asteroid_data (asteroids db) ;;
         c <- insert_all approach_params approach_data (close_approach db) ;;
         Ok {| asteroids := a; close_approach := c |})%result with
  | Ok db' => (db', Ok tt)
  | Raise e => (db, Raise e)
  end.

(** Number of rows of a table; an absent table has none. *)
Definition row_count (table : option (list row)) : nat :=
  match table with
  | None => O
  | Some rows => List.length rows
  end.

(** ** Vocabulary of the properties *)

(** [v[k1][k2]...]. *)
Fixpoint getpath (v : value) (keys : list string) : result value :=
  match keys with
  | [] => Ok v
  | k :: keys' => (x <- getitem v k ;; getpath x keys')%result
  end.

Definition diameter_min_path : list string :=
  ["estimated_diameter"; "kilometers"; "estimated_diameter_min"].

Definition diameter_max_path : list string :=
  ["estimated_diameter"; "kilometers"; "estimated_diameter_max"].

Definition float_at (v : value) (keys : list string) : result float :=
  (x <- getpath v keys ;; py_float x)%result.

(** The required fields of an object record are present and coercible;
    [absolute_magnitude_h] may be absent. *)
Definition asteroid_fields_ok (asteroid : value) : bool :=
  is_ok (rbind (getitem asteroid "id") py_int)
  && is_ok (getitem asteroid "name")
  && is_ok (rbind (dict_get asteroid "absolute_magnitude_h" (VInt 0)) py_float)
  && is_ok (float_at asteroid diameter_min_path)
  && is_ok (float_at asteroid diameter_max_path)
  && is_ok (getitem asteroid "is_potentially_hazardous_asteroid").

(** The required fields of a close-approach entry are present and
    coercible. *)
Definition approach_fields_ok (approach : value) : bool :=
  is_ok (getitem approach "close_approach_date")
  && is_ok (float_at approach ["relative_velocity"; "kilometers_per_hour"])
  && is_ok (float_at approach ["miss_distance"; "astronomical"])
  && is_ok (float_at approach ["miss_distance"; "kilometers"])
  && is_ok (float_at approach ["miss_distance"; "lunar"])
  && is_ok (getitem approach "orbiting_body").

Definition close_approach_list (asteroid : value) : result (list value) :=
  rbind (getitem asteroid "close_approach_data") iter.

(** The close-approach entries of an object record (none when the list is
    missing). *)
Definition close_approaches (asteroid : value) : list value :=
  match close_approach_list asteroid with
  | Ok cad => cad
  | Raise _ => []
  end.

Definition valid_asteroid (asteroid : value) : bool :=
  asteroid_fields_ok asteroid
  && is_ok (close_approach_list asteroid)
  && forallb approach_fields_ok (close_approaches asteroid).

Definition date_groups (page : value) : result (list (string * value)) :=
  rbind (getitem page "near_earth_objects") items.

Definition objects_on (entry : string * value) : list value :=
  match iter (snd entry) with
  | Ok asteroids => asteroids
  | Raise _ => []
  end.

(** All object records of a page, under all of its dates, in page order. *)
Definition objects_of (page : value) : list value :=
  match date_groups page with
  | Ok dates => flat_map objects_on dates
  | Raise _ => []
  end.

Definition valid_date (entry : string * value) : bool :=
  is_ok (iter (snd entry)) && forallb valid_asteroid (objects_on entry).

(** A valid API page: the date grouping is there, and every record under it
    has its required nested fields, present and coercible. *)
Definition valid_page (page : value) : bool :=
  match date_groups page with
  | Ok dates => forallb valid_date dates
  | Raise _ => false
  end.

(** The number of close-approach entries of a page. *)
Definition approach_count (page : value) : nat :=
  list_sum (map (fun asteroid => List.length (close_approaches asteroid))
                (objects_of page)).

(** A pair of records appended together by the normalizer. *)
Definition pair : Type := (asteroid_info * approach_info)%type.

(** [self] after the pairs [ps] have been appended, in order. *)
Definition push (self : NASADataExtractor) (ps : list pair) : NASADataExtractor :=
  {| api_key := api_key self;
     base_url := base_url self;
     asteroid_data := (asteroid_data self ++ map fst ps)%list;
     approach_data := (approach_data self ++ map snd ps)%list |}.

(** What a loop appends and how it ends, when each round of its body
    appends [fst (out x)] and ends as [snd (out x)]. *)
Fixpoint run_pairs {A} (out : A -> list pair * result unit) (xs : list A)
  : list pair * result unit :=
  match xs with
  | [] => ([], Ok tt)
  | x :: xs' =>
      match out x with
      | (ps, Ok _) =>
          let (qs, r) := run_pairs out xs' in ((ps ++ qs)%list, r)
      | (ps, Raise e) => (ps, Raise e)
      end
  end.

Definition approach_out (asteroid : value) (info : asteroid_info)
    (approach : value) : list pair * result unit :=
  match approach_info_of asteroid approach with
  | Ok p => ([(info, p)], Ok tt)
  | Raise e => ([], Raise e)
  end.

Definition asteroid_out (asteroid : value) : list pair * result unit :=
  match asteroid_info_of asteroid with
  | Raise e => ([], Raise e)
  | Ok info =>
      match close_approach_list asteroid with
      | Raise e => ([], Raise e)
      | Ok cad => run_pairs (approach_out asteroid info) cad
      end
  end.

Definition date_out (entry : string * value) : list pair * result unit :=
  match iter (snd entry) with
  | Raise e => ([], Raise e)
  | Ok asteroids => run_pairs asteroid_out asteroids
  end.

(** The pairs a page makes the normalizer append, and how it ends. *)
Definition page_out (page : value) : list pair * result unit :=
  match date_groups page with
  | Raise e => ([], Raise e)
  | Ok dates => run_pairs date_out dates
  end.

(** The two sequences agree position by position on the identifier. *)
Definition aligned (self : NASADataExtractor) : Prop :=
  map id (asteroid_data self) = map neo_reference_id (approach_data self).

Definition linked (p : pair) : Prop :=
  id (fst p) = neo_reference_id (snd p).

(** The URLs requested in a history, oldest first. *)
Fixpoint requests (history : list event) : list string :=
  match history with
  | [] => []
  | Get url :: history' => url :: requests history'
  | Sleep _ :: history' => requests history'
  end.

(** The URL of the [k]-th window of a run (counting from 0). *)
Definition window_url (self : NASADataExtractor) (k : nat) : string :=
  let start := add_days first_start_date (7 * Z.of_nat k) in
  request_url self (strftime start) (strftime (add_days start 6)).

(** A batch the store can take: every parameter tuple binds. *)
Definition bindable_asteroid (a : asteroid_info) : bool :=
  is_ok (bind_params (asteroid_params a)).

Definition bindable_approach (p : approach_info) : bool :=
  is_ok (bind_params (approach_params p)).

(** The reading of the two-day example by which one object with two close
    approaches leaves one object record and two approach-event records. *)
Definition appends_one_object_two_events (page : value) : Prop :=
  forall self, exists self',
    extract_asteroid_fields page self = (self', Ok tt)
    /\ List.length (asteroid_data self')
       = (List.length (asteroid_data self) + 1)%nat
    /\ List.length (approach_data self')
       = (List.length (approach_data self) + 2)%nat.

(** Every page the driver hands to the normalizer is valid: the body of a
    response that passes [raise_for_status], parses, and that
    [if neo_data:] takes for true.  Nothing is asked of the other answers
    of the network: failed requests, 4xx and 5xx responses with or without
    a body, bodies that do not parse, falsy bodies. *)
Definition normalises_valid_pages (net : network) : Prop :=
  forall h url r page,
    net h url = Responded r ->
    raise_for_status r = false ->
    json_body r = Some page ->
    truthy page = true ->
    valid_page page = true.

(** Some page that the driver would hand to the normalizer is not valid. *)
Definition normalises_invalid_page (net : network) : Prop :=
  exists h url r page,
    net h url = Responded r
    /\ raise_for_status r = false
    /\ json_body r = Some page
    /\ truthy page = true
    /\ valid_page page = false.

(** Some response of the network carries a page that is not valid. *)
Definition serves_invalid_page (net : network) : Prop :=
  exists h url r page,
    net h url = Responded r /\ json_body r = Some page
    /\ valid_page page = false.

(** The URL of the [j]-th window counted from the window that starts on
    [start]. *)
Definition window_from (self : NASADataExtractor) (start : datetime) (j : nat)
  : string :=
  request_url self (strftime (start + 7 * Z.of_nat j))
    (strftime (add_days (start + 7 * Z.of_nat j) 6)).

(** What holds of a run of the loop that came to an end after [n] rounds. *)
Definition loop_post (net : network) (vars : locals)
    (self : NASADataExtractor) (h : list event) (n : nat) (r : run locals)
  : Prop :=
  exists ps,
    self_of r = push self ps
    /\ (forall e, returned r = Raise e -> serves_invalid_page net)
    /\ Forall linked ps
    /\ requests (history_of r)
       = (requests h ++ map (window_from self (start_date vars)) (seq 0 n))%list
    /\ forall vars',
         returned r = Ok vars' ->
         start_date vars' = start_date vars + 7 * Z.of_nat n
         /\ (total_records vars <= Z.of_nat (List.length (asteroid_data self)) ->
             total_records vars'
             <= Z.of_nat (List.length (asteroid_data (self_of r))))
         /\ (TARGET_RECORDS <= total_records vars'
             \/ (2025 < year (start_date vars') /\ (0 < n)%nat)).

(** The reading of the retry scenario by which the fetch that follows the
    long delay asks for the window of the fetch that failed. *)
Definition retries_same_window (history : list event) : Prop :=
  forall before url1 url2 after,
    history = (before ++ [Get url1; Sleep 5; Get url2] ++ after)%list ->
    url2 = url1.

(** The reading of the contract by which every response outside 2xx gives
    a null result. *)
Definition null_on_every_non_2xx (net : network) : Prop :=
  forall self s e h r,
    net h (request_url self s e) = Responded r ->
    ~ (200 <= status_code r < 300) ->
    snd (fetch_neo_data net self s e h) = VNone.

(** The rows of a table; an absent table has none. *)
Definition rows_of (table : option (list row)) : list row :=
  match table with
  | Some rows => rows
  | None => []
  end.

(** The rows a batch is bound to. *)
Definition bound_rows {A} (params_of : A -> list value) (records : list A)
  : list row :=
  flat_map (fun record =>
              match bind_params (params_of record) with
              | Ok r => [r]
              | Raise _ => []
              end) records.

(** ** The whole pipeline: [DatabaseManager.setup_database]

    What a run of [setup_database] leaves behind: the store, the history
    and what the method returned or raised.  The connection object is not
    modelled: [create_tables] and [insert_data] each commit on a connection
    of their own, and [close] changes nothing in the store. *)

Record store_run : Type := {
  store_of : database;
  log_of : list event;
  outcome_of : result unit
}.

(** [create_tables], then [collect_data] on a new extractor, then
    [insert_data] of what it returned. *)
Definition setup_database (fuel : nat) (net : network) (db : database)
    (history : list event) : option store_run :=
  let db1 := create_tables db in
  match collect_data fuel net init history with
  | None => None
  | Some r =>
      match returned r with
      | Raise e =>
          Some {| store_of := db1; log_of := history_of r;
                  outcome_of := Raise e |}
      | Ok (asteroid_data, approach_data) =>
          let (db2, inserted) := insert_data asteroid_data approach_data db1 in
          Some {| store_of := db2; log_of := history_of r;
                  outcome_of := inserted |}
      end
  end.

(** ** Further vocabulary *)

(** A history made of whole rounds: a request, then a sleep of 1 or 5
    seconds, again and again. *)
Fixpoint whole_rounds (history : list event) : bool :=
  match history with
  | [] => true
  | Get _ :: Sleep seconds :: history' =>
      ((seconds =? 1) || (seconds =? 5)) && whole_rounds history'
  | _ => false
  end.

(** The seconds slept in a history. *)
Fixpoint slept (history : list event) : Z :=
  match history with
  | [] => 0
  | Sleep seconds :: history' => seconds + slept history'
  | Get _ :: history' => slept history'
  end.

(** An object record of a page paired with each of its close-approach
    entries, in page order. *)
Definition approach_entries (page : value) : list (value * value) :=
  flat_map (fun asteroid =>
              map (fun approach => (asteroid, approach))
                  (close_approaches asteroid))
           (objects_of page).

(** The first column of a stored row: the join key of both tables. *)
Definition key_of (r : row) : option sql_value := hd_error r.

(** Every fetch of the network comes back empty-handed: failed, or with a
    body that [if neo_data:] takes for a failure. *)
Definition never_serves (net : network) : Prop :=
  forall self s e h, truthy (snd (fetch_neo_data net self s e h)) = false.

(** No string of the list occurs twice. *)
Fixpoint distinct_strings (l : list string) : bool :=
  match l with
  | [] => true
  | x :: l' => negb (existsb (String.eqb x) l') && distinct_strings l'
  end.

(** The rounds of a run to which nothing is served, from window [i] on. *)
Definition idle_rounds (self : NASADataExtractor) (i k : nat) : list event :=
  flat_map (fun j => [Get (window_url self j); Sleep 5]) (seq i k).

(** The table is there whenever the batch has a record to insert. *)
Definition table_ready {A} (table : option (list row)) (records : list A)
  : bool :=
  match records, table with
  | [], _ => true
  | _, Some _ => true
  | _, None => false
  end.

(** The network answers a request the same way whenever it is asked. *)
Definition answers_by_url (net : network) : Prop :=
  forall h1 h2 url, net h1 url = net h2 url.

End Pipeline.

(** The calendar, the fetch and the loop body are not to be unfolded by
    [simpl]: they are reasoned about through their lemmas. *)
Arguments year : simpl never.
Arguments strftime : simpl never.
Arguments first_start_date : simpl never.
Arguments add_days : simpl never.
Arguments request_url : simpl never.
Arguments fetch_neo_data : simpl never.
Arguments extract_asteroid_fields : simpl never.
Arguments loop_body : simpl never.
Arguments collect_data : simpl never.

(** * A concrete instance, for running the model on examples

    Floats are exact rationals here and numbers are read from plain decimal
    notation; the general theorems do not depend on this choice. *)

Module Sample.

Definition digit_value (c : ascii) : option Z :=
  let n := Z.of_nat (nat_of_ascii c) in
  if (48 <=? n) && (n <=? 57) then Some (n - 48) else None.

(** Reads [digits] or [digits.digits]; [den] is [Some] after the point. *)
Fixpoint scan (s : string) (seen : bool) (mant : Z) (den : option positive)
  : option (Z * positive) :=
  match s with
  | EmptyString =>
      if seen then Some (mant, match den with Some d => d | None => 1%positive end)
      else None
  | String c s' =>
      if Ascii.eqb c "." then
        match den with
        | None => scan s' seen mant (Some 1%positive)
        | Some _ => None
        end
      else
        match digit_value c with
        | Some d => scan s' true (10 * mant + d) (option_map (Pos.mul 10) den)
        | None => None
        end
  end.

Definition decimal (s : string) : option Q :=
  match s with
  | String "-" s' =>
      match scan s' false 0 None with
      | Some (m, d) => Some (Qmake (- m) d)
      | None => None
      end
  | _ =>
      match scan s false 0 None with
      | Some (m, d) => Some (Qmake m d)
      | None => None
      end
  end.

#[export] Instance builtins : PyBuiltins := {|
  float := Q;
  float_le := Qle;
  float_is_zero := fun q => Qnum q =? 0;
  float_of_int := fun z => Ok (inject_Z z);
  float_of_str := fun s =>
    match decimal s with Some q => Ok q | None => Raise ValueError end;
  int_of_float := fun q => Ok (Z.quot (Qnum q) (Zpos (Qden q)));
  int_of_str := fun s =>
    match decimal s with
    | Some (Qmake m 1) => Ok m
    | _ => Raise ValueError
    end
|}.

#[export] Instance config : Config := {|
  NASA_API_KEY := "DEMO_KEY";
  BASE_URL := "https://api.nasa.gov/neo/rest/v1/feed";
  TARGET_RECORDS := 3;
  DATABASE_NAME := "nasa_asteroids.db"
|}.

(** One close-approach entry as the feed writes it. *)
Definition approach_on (date : string) : value :=
  VDict [ ("close_approach_date", VStr date);
          ("relative_velocity",
             VDict [ ("kilometers_per_second", VStr "13.4");
                     ("kilometers_per_hour", VStr "48520.3") ]);
          ("miss_distance",
             VDict [ ("astronomical", VStr "0.3027");
                     ("lunar", VStr "117.75");
                     ("kilometers", VStr "45290438.2") ]);
          ("orbiting_body", VStr "Earth") ].

(** One object record with the given close-approach list. *)
Definition object_with (ident : string) (approaches : list value) : value :=
  VDict [ ("id", VStr ident);
          ("name", VStr "465633 (2009 JR5)");
          ("absolute_magnitude_h", VFloat (Qmake 2044 100));
          ("estimated_diameter",
             VDict [ ("kilometers",
                        VDict [ ("estimated_diameter_min", VFloat (Qmake 2171 10000));
                                ("estimated_diameter_max", VFloat (Qmake 4855 10000)) ]) ]);
          ("is_potentially_hazardous_asteroid", VBool true);
          ("close_approach_data", VList approaches) ].

(** A two-day page: one object, seen twice. *)
Definition two_day_page : value :=
  VDict [ ("element_count", VInt 1);
          ("near_earth_objects",
             VDict [ ("2024-01-01",
                        VList [ object_with "2465633"
                                  [ approach_on "2024-01-01";
                                    approach_on "2024-01-02" ] ]);
                     ("2024-01-02", VList []) ]) ].

(** An object record whose diameter block is missing. *)
Definition object_without_diameter : value :=
  VDict [ ("id", VStr "3542519");
          ("name", VStr "(2010 PK9)");
          ("is_potentially_hazardous_asteroid", VBool false);
          ("close_approach_data", VList [ approach_on "2024-01-03" ]) ].

Definition malformed_page : value :=
  VDict [ ("element_count", VInt 1);
          ("near_earth_objects",
             VDict [ ("2024-01-03", VList [ object_without_diameter ]) ]) ].

(** Three networks: one that never answers, one that always serves the
    two-day page, and one that answers 300 Multiple Choices with a body. *)
Definition all_fail : network := fun _ _ => RequestFailed.

Definition always_two_day_page : network :=
  fun _ _ => Responded {| status_code := 200; json_body := Some two_day_page |}.

Definition multiple_choices : network :=
  fun _ _ => Responded {| status_code := 300; json_body := Some two_day_page |}.

Definition empty_store : database :=
  {| asteroids := None; close_approach := None |}.

Definition the_object : value :=
  object_with "2465633" [ approach_on "2024-01-01"; approach_on "2024-01-02" ].

(** The batch the two-day page normalises to. *)
Definition two_day_batch : NASADataExtractor :=
  fst (extract_asteroid_fields two_day_page init).

(** The first request fails; every later one is served the two-day page. *)
Definition fails_once : network :=
  fun history _ =>
    match history with
    | [] => RequestFailed
    | _ => Responded {| status_code := 200; json_body := Some two_day_page |}
    end.

(** Every request is served the malformed page. *)
Definition always_malformed : network :=
  fun _ _ => Responded {| status_code := 200; json_body := Some malformed_page |}.

(** A configuration that asks for no record at all. *)
Definition no_target : Config := {|
  NASA_API_KEY := "DEMO_KEY";
  BASE_URL := "https://api.nasa.gov/neo/rest/v1/feed";
  TARGET_RECORDS := 0;
  DATABASE_NAME := "nasa_asteroids.db"
|}.

(** An object record without [absolute_magnitude_h]. *)
Definition object_without_magnitude : value :=
  VDict [ ("id", VStr "54016476");
          ("name", VStr "(2020 HS6)");
          ("estimated_diameter",
             VDict [ ("kilometers",
                        VDict [ ("estimated_diameter_min", VFloat (Qmake 1 100));
                                ("estimated_diameter_max", VFloat (Qmake 3 100)) ]) ]);
          ("is_potentially_hazardous_asteroid", VBool false);
          ("close_approach_data", VList [ approach_on "2024-01-04" ]) ].

(** An object record that was never seen near the Earth. *)
Definition object_never_seen : value := object_with "3727181" [].

(** Under one date: a valid object, one without diameters, a valid one. *)
Definition mixed_date : string * value :=
  ("2024-01-05", VList [ the_object; object_without_diameter; the_object ]).

(** Every request is answered 200 with the empty object. *)
Definition serves_empty_object : network :=
  fun _ _ => Responded {| status_code := 200; json_body := Some (VDict []) |}.

(** An extractor that holds exactly the target count of records: the
    two-day page normalised twice, then sliced. *)
Definition full_extractor : NASADataExtractor :=
  trim (fst (extract_asteroid_fields two_day_page two_day_batch)).

(** The store after the two-day batch was written once, and twice. *)
Definition store_once : database :=
  fst (insert_data (asteroid_data two_day_batch) (approach_data two_day_batch)
         (create_tables empty_store)).

Definition store_twice : database :=
  fst (insert_data (asteroid_data two_day_batch) (approach_data two_day_batch)
         store_once).

(** The pipeline run once on a new store, against the two-day feed. *)
Definition first_setup : store_run :=
  match setup_database enough always_two_day_page empty_store [] with
  | Some r => r
  | None => {| store_of := empty_store; log_of := []; outcome_of := Ok tt |}
  end.

(** A feed with every kind of failed fetch before it serves pages: first
    HTTP 500 with a JSON error body, then HTTP 200 with the empty object,
    then the two-day page on every later request. *)
Definition flaky_feed : network :=
  fun history _ =>
    match history with
    | [] =>
        Responded {| status_code := 500;
                     json_body :=
                       Some (VDict [ ("error",
                                      VStr "Internal Server Error") ]) |}
    | [_; _] => Responded {| status_code := 200; json_body := Some (VDict []) |}
    | _ => Responded {| status_code := 200; json_body := Some two_day_page |}
    end.

(** A feed that answers every request HTTP 429 with a JSON error body. *)
Definition over_rate_limit : network :=
  fun _ _ =>
    Responded {| status_code := 429;
                 json_body :=
                   Some (VDict [ ("error",
                                  VDict [ ("code", VStr "OVER_RATE_LIMIT") ]) ]) |}.

End Sample.

(** * Properties *)

Section Properties.

Context {builtins : PyBuiltins} {config : Config}.

(** ** The normalizer, as a function of the page *)

Ltac case_results :=
  repeat match goal with
         | |- context [getitem ?v ?k] => destruct (getitem v k) eqn:?; simpl
         | |- context [dict_get ?v ?k ?d] => destruct (dict_get v k d) eqn:?; simpl
         | |- context [py_int ?v] => destruct (py_int v) eqn:?; simpl
         | |- context [py_float ?v] => destruct (py_float v) eqn:?; simpl
         end.

Lemma asteroid_fields_ok_spec (asteroid : value) :
  asteroid_fields_ok asteroid = is_ok (asteroid_info_of asteroid).
Proof.
  unfold asteroid_fields_ok, asteroid_info_of, float_at, diameter_min_path,
    diameter_max_path, getpath, rbind.
  case_results; reflexivity.
Qed.

Lemma approach_fields_ok_spec (asteroid approach : value) :
  is_ok (approach_info_of asteroid approach)
  = is_ok (rbind (getitem asteroid "id") py_int) && approach_fields_ok approach.
Proof.
  unfold approach_fields_ok, approach_info_of, float_at, getpath, rbind.
  case_results; reflexivity.
Qed.

Lemma same_identifier (asteroid approach : value) info p :
  asteroid_info_of asteroid = Ok info ->
  approach_info_of asteroid approach = Ok p ->
  linked (info, p).
Proof.
  unfold asteroid_info_of, approach_info_of, linked, rbind.
  case_results; intros Ha Hp; try discriminate.
  injection Ha as <-. injection Hp as <-. reflexivity.
Qed.

Lemma is_ok_unit (r : result unit) : is_ok r = true -> r = Ok tt.
Proof. destruct r as [[]|]; simpl; [reflexivity | discriminate]. Qed.

Lemma push_nil self : push self [] = self.
Proof. destruct self; unfold push; simpl. now rewrite !app_nil_r. Qed.

Lemma push_app self ps qs : push (push self ps) qs = push self (ps ++ qs).
Proof. unfold push; simpl. now rewrite !map_app, !app_assoc. Qed.

Section Loops.

Context {A : Type} (out : A -> list pair * result unit).

Lemma run_pairs_is_ok (xs : list A) :
  is_ok (snd (run_pairs out xs)) = forallb (fun x => is_ok (snd (out x))) xs.
Proof.
  induction xs as [|x xs IH]; simpl; [reflexivity|].
  destruct (out x) as [ps [[]|e]]; simpl; [|reflexivity].
  destruct (run_pairs out xs); simpl in *; exact IH.
Qed.

Lemma run_pairs_all_ok (xs : list A) :
  (forall x, In x xs -> snd (out x) = Ok tt) ->
  run_pairs out xs = (flat_map (fun x => fst (out x)) xs, Ok tt).
Proof.
  induction xs as [|x xs IH]; simpl; intros H; [reflexivity|].
  pose proof (H x (or_introl eq_refl)) as Hx.
  destruct (out x) as [ps r]; simpl in Hx; subst r.
  rewrite IH by auto. reflexivity.
Qed.

Lemma run_pairs_In (xs : list A) (p : pair) :
  In p (fst (run_pairs out xs)) -> exists x, In x xs /\ In p (fst (out x)).
Proof.
  induction xs as [|x xs IH]; simpl; [tauto|].
  destruct (out x) as [ps [[]|e]] eqn:E; simpl.
  - destruct (run_pairs out xs) as [qs r]; simpl in *.
    intros H. apply in_app_or in H as [H|H].
    + exists x. rewrite E. auto.
    + destruct (IH H) as (y & Hy & Hp). eauto.
  - intros H. exists x. rewrite E. auto.
Qed.

Lemma for_each_run_pairs (body : A -> method unit) (xs : list A) :
  (forall x self, In x xs -> body x self = (push self (fst (out x)), snd (out x))) ->
  forall self,
    for_each xs body self
    = (push self (fst (run_pairs out xs)), snd (run_pairs out xs)).
Proof.
  induction xs as [|x xs IH]; simpl; intros H self.
  - now rewrite push_nil.
  - unfold bind. rewrite H by auto.
    destruct (out x) as [ps [[]|e]]; simpl; [|reflexivity].
    rewrite IH by auto.
    destruct (run_pairs out xs) as [qs r]; simpl. now rewrite push_app.
Qed.

End Loops.

Lemma approach_body_spec asteroid info approach self :
  approach_body asteroid info approach self
  = (push self (fst (approach_out asteroid info approach)),
     snd (approach_out asteroid info approach)).
Proof.
  unfold approach_body, approach_out, bind, lift.
  destruct (approach_info_of asteroid approach); simpl.
  - reflexivity.
  - now rewrite push_nil.
Qed.

Lemma asteroid_body_spec asteroid self :
  asteroid_body asteroid self
  = (push self (fst (asteroid_out asteroid)), snd (asteroid_out asteroid)).
Proof.
  unfold asteroid_body, asteroid_out, close_approach_list, bind, lift.
  destruct (asteroid_info_of asteroid) as [info|e]; simpl;
    [|now rewrite push_nil].
  destruct (rbind (getitem asteroid "close_approach_data") iter) as [cad|e];
    simpl; [|now rewrite push_nil].
  apply for_each_run_pairs. intros; apply approach_body_spec.
Qed.

Lemma date_body_spec entry self :
  date_body entry self
  = (push self (fst (date_out entry)), snd (date_out entry)).
Proof.
  unfold date_body, date_out, bind, lift.
  destruct (iter (snd entry)) as [asteroids|e]; simpl; [|now rewrite push_nil].
  apply for_each_run_pairs. intros; apply asteroid_body_spec.
Qed.

(** The normalizer appends exactly the pairs of [page_out], and raises
    exactly when [page_out] says so. *)
Lemma extract_asteroid_fields_spec page self :
  extract_asteroid_fields page self
  = (push self (fst (page_out page)), snd (page_out page)).
Proof.
  unfold extract_asteroid_fields, page_out, date_groups, bind, lift.
  destruct (rbind (getitem page "near_earth_objects") items) as [dates|e];
    simpl; [|now rewrite push_nil].
  apply for_each_run_pairs. intros; apply date_body_spec.
Qed.

(** ** Valid pages are exactly the pages the normalizer accepts *)

Lemma forallb_eq {A} (f g : A -> bool) (xs : list A) :
  (forall x, In x xs -> f x = g x) -> forallb f xs = forallb g xs.
Proof.
  induction xs as [|x xs IH]; simpl; intros H; [reflexivity|].
  rewrite H, IH by auto. reflexivity.
Qed.

Lemma identifier_ok asteroid info :
  asteroid_info_of asteroid = Ok info ->
  is_ok (rbind (getitem asteroid "id") py_int) = true.
Proof.
  intros H. pose proof (asteroid_fields_ok_spec asteroid) as E.
  rewrite H in E. unfold asteroid_fields_ok in E. simpl in E.
  repeat (apply andb_prop in E as [E _]). exact E.
Qed.

Lemma approach_out_is_ok asteroid info approach :
  asteroid_info_of asteroid = Ok info ->
  is_ok (snd (approach_out asteroid info approach)) = approach_fields_ok approach.
Proof.
  intros H. pose proof (approach_fields_ok_spec asteroid approach) as E.
  erewrite identifier_ok in E by eassumption. simpl in E. rewrite <- E.
  unfold approach_out. now destruct (approach_info_of asteroid approach).
Qed.

Lemma asteroid_out_is_ok asteroid :
  is_ok (snd (asteroid_out asteroid)) = valid_asteroid asteroid.
Proof.
  unfold asteroid_out, valid_asteroid, close_approaches.
  rewrite asteroid_fields_ok_spec.
  destruct (asteroid_info_of asteroid) as [info|e] eqn:E; simpl; [|reflexivity].
  destruct (close_approach_list asteroid) as [cad|e]; simpl; [|reflexivity].
  rewrite run_pairs_is_ok. apply forallb_eq.
  intros c _. now apply approach_out_is_ok.
Qed.

Lemma date_out_is_ok entry : is_ok (snd (date_out entry)) = valid_date entry.
Proof.
  unfold date_out, valid_date, objects_on.
  destruct (iter (snd entry)) as [asteroids|e]; simpl; [|reflexivity].
  rewrite run_pairs_is_ok. apply forallb_eq.
  intros a _. apply asteroid_out_is_ok.
Qed.

Lemma page_out_is_ok page : is_ok (snd (page_out page)) = valid_page page.
Proof.
  unfold page_out, valid_page.
  destruct (date_groups page) as [dates|e]; simpl; [|reflexivity].
  rewrite run_pairs_is_ok. apply forallb_eq.
  intros d _. apply date_out_is_ok.
Qed.

(** ** What a valid page appends *)

Lemma approaches_of_valid asteroid info (cad : list value) :
  asteroid_info_of asteroid = Ok info ->
  forallb approach_fields_ok cad = true ->
  exists ps,
    Forall2 (fun c p => approach_info_of asteroid c = Ok p) cad ps
    /\ run_pairs (approach_out asteroid info) cad
       = (map (fun p => (info, p)) ps, Ok tt).
Proof.
  intros Hinfo. induction cad as [|c cad IH]; simpl; intros H.
  - exists []. split; [constructor | reflexivity].
  - apply andb_prop in H as [Hc Hcad].
    destruct (IH Hcad) as (ps & Hps & Hrun).
    erewrite <- approach_out_is_ok in Hc by eassumption.
    unfold approach_out in *.
    destruct (approach_info_of asteroid c) as [p|e] eqn:E; [|discriminate].
    exists (p :: ps). split; [now constructor|].
    rewrite Hrun. reflexivity.
Qed.

Lemma asteroid_out_valid asteroid :
  valid_asteroid asteroid = true ->
  exists info ps,
    asteroid_info_of asteroid = Ok info
    /\ Forall2 (fun c p => approach_info_of asteroid c = Ok p)
               (close_approaches asteroid) ps
    /\ asteroid_out asteroid = (map (fun p => (info, p)) ps, Ok tt).
Proof.
  unfold valid_asteroid, asteroid_out, close_approaches.
  rewrite asteroid_fields_ok_spec. intros H.
  apply andb_prop in H as [H Hall]. apply andb_prop in H as [Hinfo Hcad].
  destruct (asteroid_info_of asteroid) as [info|e] eqn:E; [|discriminate].
  destruct (close_approach_list asteroid) as [cad|e]; [|discriminate].
  edestruct approaches_of_valid as (ps & Hps & Hrun); [exact E | exact Hall |].
  exists info, ps. auto.
Qed.

Lemma asteroid_out_length asteroid :
  valid_asteroid asteroid = true ->
  List.length (fst (asteroid_out asteroid))
  = List.length (close_approaches asteroid).
Proof.
  intros H. destruct (asteroid_out_valid asteroid H) as (info & ps & _ & H2 & E).
  rewrite E. simpl. rewrite length_map. symmetry. eapply Forall2_length; eauto.
Qed.

Lemma flat_map_flat_map {A B C} (f : B -> list C) (g : A -> list B) xs :
  flat_map f (flat_map g xs) = flat_map (fun x => flat_map f (g x)) xs.
Proof.
  induction xs as [|x xs IH]; simpl; [reflexivity|].
  now rewrite flat_map_app, IH.
Qed.

Lemma flat_map_eq {A B} (f g : A -> list B) xs :
  (forall x, In x xs -> f x = g x) -> flat_map f xs = flat_map g xs.
Proof.
  induction xs as [|x xs IH]; simpl; intros H; [reflexivity|].
  rewrite H, IH by auto. reflexivity.
Qed.

Lemma date_out_valid entry :
  valid_date entry = true ->
  date_out entry
  = (flat_map (fun a => fst (asteroid_out a)) (objects_on entry), Ok tt).
Proof.
  unfold valid_date, date_out, objects_on. intros H.
  apply andb_prop in H as [Hit Hall].
  destruct (iter (snd entry)) as [asteroids|e]; [|discriminate].
  apply run_pairs_all_ok. intros a Ha. apply is_ok_unit.
  rewrite asteroid_out_is_ok. rewrite forallb_forall in Hall. auto.
Qed.

Lemma page_out_valid page :
  valid_page page = true ->
  page_out page
  = (flat_map (fun a => fst (asteroid_out a)) (objects_of page), Ok tt)
  /\ forallb valid_asteroid (objects_of page) = true.
Proof.
  unfold valid_page, page_out, objects_of. intros H.
  destruct (date_groups page) as [dates|e]; [|discriminate].
  rewrite forallb_forall in H. split.
  - rewrite run_pairs_all_ok.
    + rewrite flat_map_flat_map. f_equal. apply flat_map_eq.
      intros d Hd. now rewrite date_out_valid by auto.
    + intros d Hd. now rewrite date_out_valid by auto.
  - apply forallb_forall. intros a Ha.
    apply in_flat_map in Ha as (d & Hd & Ha).
    specialize (H d Hd). unfold valid_date in H.
    apply andb_prop in H as [_ H]. rewrite forallb_forall in H. auto.
Qed.

Lemma appended_count (objects : list value) :
  forallb valid_asteroid objects = true ->
  List.length (flat_map (fun a => fst (asteroid_out a)) objects)
  = list_sum (map (fun a => List.length (close_approaches a)) objects).
Proof.
  induction objects as [|a objects IH]; simpl; intros H; [reflexivity|].
  apply andb_prop in H as [Ha H].
  now rewrite length_app, asteroid_out_length, IH.
Qed.

(** ** Where an appended pair comes from *)

Lemma asteroid_out_In asteroid (p : pair) :
  In p (fst (asteroid_out asteroid)) ->
  asteroid_info_of asteroid = Ok (fst p)
  /\ exists approach,
       In approach (close_approaches asteroid)
       /\ approach_info_of asteroid approach = Ok (snd p).
Proof.
  unfold asteroid_out, close_approaches.
  destruct (asteroid_info_of asteroid) as [info|e]; simpl; [|tauto].
  destruct (close_approach_list asteroid) as [cad|e]; simpl; [|tauto].
  intros H. apply run_pairs_In in H as (c & Hc & H).
  unfold approach_out in H.
  destruct (approach_info_of asteroid c) as [q|e] eqn:E; simpl in H; [|tauto].
  destruct H as [<-|[]]. simpl. eauto.
Qed.

Lemma page_out_In page (p : pair) :
  In p (fst (page_out page)) ->
  exists asteroid,
    In asteroid (objects_of page) /\ In p (fst (asteroid_out asteroid)).
Proof.
  unfold page_out, objects_of.
  destruct (date_groups page) as [dates|e]; simpl; [|tauto].
  intros H. apply run_pairs_In in H as (d & Hd & H).
  unfold date_out in H.
  destruct (iter (snd d)) as [asteroids|e] eqn:E; simpl in H; [|tauto].
  apply run_pairs_In in H as (a & Ha & H).
  exists a. split; [|exact H].
  apply in_flat_map. exists d. split; [exact Hd|].
  unfold objects_on. now rewrite E.
Qed.

Lemma page_out_linked page : Forall linked (fst (page_out page)).
Proof.
  apply Forall_forall. intros [info q] H.
  apply page_out_In in H as (a & _ & H).
  apply asteroid_out_In in H as (Ha & c & _ & Hc).
  eapply same_identifier; eauto.
Qed.

Lemma aligned_push self ps :
  aligned self -> Forall linked ps -> aligned (push self ps).
Proof.
  unfold aligned, push; simpl. intros H Hps.
  rewrite !map_app, H. f_equal.
  induction Hps as [|p ps Hp _ IH]; simpl; [reflexivity|].
  now rewrite Hp, IH.
Qed.

Lemma diameters_of asteroid info :
  asteroid_info_of asteroid = Ok info ->
  float_at asteroid diameter_min_path = Ok (estimated_diameter_min_km info)
  /\ float_at asteroid diameter_max_path = Ok (estimated_diameter_max_km info).
Proof.
  unfold asteroid_info_of, float_at, diameter_min_path, diameter_max_path,
    getpath, rbind.
  case_results; intros H; try discriminate.
  injection H as <-. simpl. auto.
Qed.

(** ** Properties of the Record Normalizer *)

(** C1 (as the code has it): on a valid page whose only object record has
    exactly two close-approach entries, the normalizer appends two
    approach-event records and two object records, one copy of the object's
    record per close approach, and all four carry the object's identifier. *)
Theorem extract_one_object_two_approaches page self asteroid c1 c2 :
  valid_page page = true ->
  objects_of page = [asteroid] ->
  close_approaches asteroid = [c1; c2] ->
  exists self' info p1 p2,
    extract_asteroid_fields page self = (self', Ok tt)
    /\ asteroid_info_of asteroid = Ok info
    /\ approach_info_of asteroid c1 = Ok p1
    /\ approach_info_of asteroid c2 = Ok p2
    /\ asteroid_data self' = (asteroid_data self ++ [info; info])%list
    /\ approach_data self' = (approach_data self ++ [p1; p2])%list
    /\ neo_reference_id p1 = id info
    /\ neo_reference_id p2 = id info.
Proof.
  intros Hpage Hobjs Hcad.
  destruct (page_out_valid page Hpage) as [Hout Hall].
  rewrite Hobjs in Hout, Hall. simpl in Hout, Hall.
  apply andb_prop in Hall as [Ha _].
  destruct (asteroid_out_valid asteroid Ha) as (info & ps & Hinfo & Hps & Ea).
  rewrite Hcad in Hps.
  inversion Hps as [|? p1 ? ps1 H1 Hps1]; subst.
  inversion Hps1 as [|? p2 ? ps2 H2 Hps2]; subst.
  inversion Hps2; subst.
  rewrite Ea in Hout. simpl in Hout.
  exists (push self [(info, p1); (info, p2)]), info, p1, p2.
  rewrite extract_asteroid_fields_spec, Hout. simpl.
  repeat split; auto.
  - symmetry. exact (same_identifier asteroid c1 Hinfo H1).
  - symmetry. exact (same_identifier asteroid c2 Hinfo H2).
Qed.

(** C4: on a valid page the normalizer succeeds, and the number of
    approach-event records it appends is the sum, over the object records
    under all dates of the page, of the length of the close-approach list. *)
Theorem extract_approach_count page self :
  valid_page page = true ->
  exists self',
    extract_asteroid_fields page self = (self', Ok tt)
    /\ List.length (approach_data self')
       = (List.length (approach_data self) + approach_count page)%nat.
Proof.
  intros Hpage. destruct (page_out_valid page Hpage) as [Hout Hall].
  rewrite extract_asteroid_fields_spec, Hout. simpl.
  eexists. split; [reflexivity|]. simpl.
  rewrite length_app, length_map. f_equal.
  now apply appended_count.
Qed.

(** C9: every object record the normalizer appends comes from an object
    record of the page; its two diameter fields are [float] of that
    object's own upstream minimum and maximum, so a float is passed through
    unchanged, and the record is ordered whenever the upstream values are. *)
Theorem extract_diameters_pass_through page self self' r :
  extract_asteroid_fields page self = (self', r) ->
  exists new,
    asteroid_data self' = (asteroid_data self ++ new)%list
    /\ forall info, In info new ->
       exists asteroid,
         In asteroid (objects_of page)
         /\ float_at asteroid diameter_min_path
            = Ok (estimated_diameter_min_km info)
         /\ float_at asteroid diameter_max_path
            = Ok (estimated_diameter_max_km info)
         /\ (forall lo hi,
               getpath asteroid diameter_min_path = Ok (VFloat lo) ->
               getpath asteroid diameter_max_path = Ok (VFloat hi) ->
               estimated_diameter_min_km info = lo
               /\ estimated_diameter_max_km info = hi)
         /\ (forall lo hi,
               float_at asteroid diameter_min_path = Ok lo ->
               float_at asteroid diameter_max_path = Ok hi ->
               float_le lo hi ->
               float_le (estimated_diameter_min_km info)
                        (estimated_diameter_max_km info)).
Proof.
  rewrite extract_asteroid_fields_spec. intros E. injection E as <- _.
  exists (map fst (fst (page_out page))). split; [reflexivity|].
  intros info Hin. apply in_map_iff in Hin as (p & <- & Hp).
  apply page_out_In in Hp as (a & Ha & Hp).
  apply asteroid_out_In in Hp as (Hinfo & _).
  destruct (diameters_of a Hinfo) as [Hmin Hmax].
  exists a. split; [exact Ha|]. split; [exact Hmin|]. split; [exact Hmax|].
  split.
  - intros lo hi Hlo Hhi. unfold float_at in Hmin, Hmax.
    rewrite Hlo in Hmin. rewrite Hhi in Hmax. simpl in Hmin, Hmax.
    split; congruence.
  - intros lo hi Hlo Hhi Hle. congruence.
Qed.

(** ** The Fetch Client *)

Lemma requests_app h1 h2 : requests (h1 ++ h2) = (requests h1 ++ requests h2)%list.
Proof.
  induction h1 as [|[url|n] h1 IH]; simpl; [reflexivity| |exact IH].
  now rewrite IH.
Qed.

Lemma fetch_neo_data_history net self s e h :
  fst (fetch_neo_data net self s e h) = (h ++ [Get (request_url self s e)])%list.
Proof.
  unfold fetch_neo_data.
  destruct (net h (request_url self s e)) as [|r]; [reflexivity|].
  destruct (raise_for_status r); [reflexivity|].
  now destruct (json_body r).
Qed.

Lemma raise_for_status_spec r :
  raise_for_status r = (400 <=? status_code r) && (status_code r <? 600).
Proof.
  unfold raise_for_status.
  destruct (400 <=? status_code r) eqn:A, (status_code r <? 500) eqn:B,
    (500 <=? status_code r) eqn:C, (status_code r <? 600) eqn:D;
    simpl; try reflexivity; lia.
Qed.

Lemma fetch_neo_data_truthy net self s e h :
  truthy (snd (fetch_neo_data net self s e h)) = true ->
  exists r,
    net h (request_url self s e) = Responded r
    /\ raise_for_status r = false
    /\ json_body r = Some (snd (fetch_neo_data net self s e h)).
Proof.
  unfold fetch_neo_data.
  destruct (net h (request_url self s e)) as [|r]; simpl; [discriminate|].
  destruct (raise_for_status r) eqn:S; simpl; [discriminate|].
  destruct (json_body r) as [v|] eqn:J; simpl; [|discriminate].
  intros _. exists r. auto.
Qed.

(** ** One round of the driver *)

Lemma loop_body_spec net vars self h :
  exists ps,
    self_of (loop_body net vars self h) = push self ps
    /\ Forall linked ps
    /\ requests (history_of (loop_body net vars self h))
       = (requests h
          ++ [request_url self (strftime (start_date vars))
                (strftime (add_days (start_date vars) 6))])%list
    /\ forall vars',
         returned (loop_body net vars self h) = Ok vars' ->
         start_date vars' = start_date vars + 7
         /\ (total_records vars <= Z.of_nat (List.length (asteroid_data self)) ->
             total_records vars'
             <= Z.of_nat (List.length (asteroid_data (self_of (loop_body net vars self h))))).
Proof.
  unfold loop_body.
  pose proof (fetch_neo_data_history net self (strftime (start_date vars))
                (strftime (add_days (start_date vars) 6)) h) as Hh.
  destruct (fetch_neo_data net self (strftime (start_date vars))
              (strftime (add_days (start_date vars) 6)) h) as [h1 page].
  simpl in Hh. subst h1.
  destruct (truthy page).
  - rewrite extract_asteroid_fields_spec.
    exists (fst (page_out page)).
    destruct (snd (page_out page)) as [[]|e]; simpl;
      (split; [reflexivity|]); (split; [apply page_out_linked|]).
    + rewrite !requests_app. simpl. rewrite app_nil_r. split; [reflexivity|].
      intros vars' E. injection E as <-. simpl. unfold add_days. split; lia.
    + rewrite requests_app. simpl. split; [reflexivity|]. discriminate.
  - exists []. simpl. rewrite push_nil. split; [reflexivity|].
    split; [constructor|].
    rewrite !requests_app. simpl. rewrite app_nil_r. split; [reflexivity|].
    intros vars' E. injection E as <-. simpl. unfold add_days. split; lia.
Qed.

Lemma loop_body_raise net vars self h e :
  returned (loop_body net vars self h) = Raise e -> serves_invalid_page net.
Proof.
  unfold loop_body.
  pose proof (fetch_neo_data_truthy net self (strftime (start_date vars))
                (strftime (add_days (start_date vars) 6)) h) as Hf.
  destruct (fetch_neo_data net self (strftime (start_date vars))
              (strftime (add_days (start_date vars) 6)) h) as [h1 page].
  simpl in Hf.
  destruct (truthy page); [|discriminate].
  destruct (Hf eq_refl) as (r & Hnet & _ & Hjson).
  rewrite extract_asteroid_fields_spec.
  pose proof (page_out_is_ok page) as Hv.
  destruct (snd (page_out page)) as [[]|e']; simpl; [discriminate|].
  intros _. do 4 eexists. split; [exact Hnet|]. split; [exact Hjson|].
  now rewrite <- Hv.
Qed.

(** ** The loop of the driver *)

Lemma window_from_shift self start n :
  (window_from self start 0 :: map (window_from self (start + 7)) (seq 0 n))
  = map (window_from self start) (seq 0 (S n)).
Proof.
  simpl. f_equal. rewrite <- seq_shift, map_map.
  apply map_ext. intros j. unfold window_from.
  replace (start + 7 + 7 * Z.of_nat j) with (start + 7 * Z.of_nat (S j)) by lia.
  reflexivity.
Qed.

Lemma window_from_push self ps start j :
  window_from (push self ps) start j = window_from self start j.
Proof. reflexivity. Qed.

Lemma loop_post_done net vars self h :
  (total_records vars <? TARGET_RECORDS) = false ->
  loop_post net vars self h 0
    {| history_of := h; self_of := self; returned := Ok vars |}.
Proof.
  intros T. exists []. simpl. rewrite push_nil, app_nil_r.
  split; [reflexivity|]. split; [discriminate|].
  split; [constructor|]. split; [reflexivity|].
  intros vars' E. injection E as <-.
  split; [lia|]. split; [auto|]. left. lia.
Qed.

Lemma window_from_0 self start :
  window_from self start 0
  = request_url self (strftime start) (strftime (add_days start 6)).
Proof.
  unfold window_from. now replace (start + 7 * Z.of_nat 0) with start by lia.
Qed.

Lemma loop_post_last net vars self h :
  (forall vars', returned (loop_body net vars self h) = Ok vars' ->
                 (year (start_date vars') >? 2025) = true) ->
  loop_post net vars self h 1 (loop_body net vars self h).
Proof.
  intros Hbreak.
  destruct (loop_body_spec net vars self h) as (ps & Hself & Hps & Hreq & Hvars).
  exists ps. split; [exact Hself|].
  split; [intros e; apply loop_body_raise|]. split; [exact Hps|].
  split; [rewrite Hreq; simpl; now rewrite window_from_0|].
  intros vars' E. destruct (Hvars vars' E) as [Hstart Htotal].
  specialize (Hbreak vars' E).
  split; [lia|]. split; [exact Htotal|]. right. lia.
Qed.

Lemma loop_post_step net vars self h vars' n r :
  returned (loop_body net vars self h) = Ok vars' ->
  loop_post net vars' (self_of (loop_body net vars self h))
    (history_of (loop_body net vars self h)) n r ->
  loop_post net vars self h (S n) r.
Proof.
  intros R (qs & Hself' & Hraise & Hqs & Hreq' & Hexit).
  destruct (loop_body_spec net vars self h) as (ps & Hself & Hps & Hreq & Hvars).
  destruct (Hvars vars' R) as [Hstart Htotal].
  exists (ps ++ qs)%list.
  split; [now rewrite Hself', Hself, push_app|].
  split; [exact Hraise|].
  split; [now apply Forall_app|].
  split.
  - rewrite Hreq', Hreq, Hself, Hstart, <- app_assoc. f_equal.
    rewrite <- window_from_shift, window_from_0. reflexivity.
  - intros v Hv. destruct (Hexit v Hv) as (Hs & Ht & Hx).
    split; [lia|]. split; [auto|].
    destruct Hx as [Hx|[Hx _]]; [left; exact Hx | right; split; [exact Hx | lia]].
Qed.

Lemma collect_loop_done fuel net vars self h :
  (total_records vars <? TARGET_RECORDS) = false ->
  collect_loop fuel net vars self h
  = Some {| history_of := h; self_of := self; returned := Ok vars |}.
Proof. intros T. destruct fuel; cbn [collect_loop]; now rewrite T. Qed.

Lemma collect_loop_out_of_fuel net vars self h :
  (total_records vars <? TARGET_RECORDS) = true ->
  collect_loop 0 net vars self h = None.
Proof. intros T. cbn [collect_loop]. now rewrite T. Qed.

Lemma collect_loop_round fuel net vars self h :
  (total_records vars <? TARGET_RECORDS) = true ->
  collect_loop (S fuel) net vars self h
  = match returned (loop_body net vars self h) with
    | Raise e => Some (loop_body net vars self h)
    | Ok vars' =>
        if year (start_date vars') >? 2025 then Some (loop_body net vars self h)
        else collect_loop fuel net vars'
               (self_of (loop_body net vars self h))
               (history_of (loop_body net vars self h))
    end.
Proof. intros T. cbn [collect_loop]. now rewrite T. Qed.

Lemma collect_loop_inv net fuel :
  forall vars self h r,
    collect_loop fuel net vars self h = Some r ->
    exists n, (n <= fuel)%nat /\ loop_post net vars self h n r.
Proof.
  induction fuel as [|fuel IH]; intros vars self h r;
    destruct (total_records vars <? TARGET_RECORDS) eqn:T.
  - now rewrite collect_loop_out_of_fuel.
  - rewrite collect_loop_done by exact T.
    intros E. injection E as <-. exists O. split; [lia|].
    now apply loop_post_done.
  - rewrite collect_loop_round by exact T.
    destruct (returned (loop_body net vars self h)) as [vars'|e] eqn:R.
    + destruct (year (start_date vars') >? 2025) eqn:Y.
      * intros E. injection E as <-. exists 1%nat. split; [lia|].
        apply loop_post_last. intros v Hv. congruence.
      * intros E. apply IH in E as (n & Hn & Hpost).
        exists (S n). split; [lia|]. eapply loop_post_step; eauto.
    + intros E. injection E as <-. exists 1%nat. split; [lia|].
      apply loop_post_last. intros v Hv. congruence.
  - rewrite collect_loop_done by exact T.
    intros E. injection E as <-. exists O. split; [lia|].
    now apply loop_post_done.
Qed.

(** The loop comes to an end within the windows left before 2026. *)
Lemma collect_loop_terminates net :
  forall k i,
    (i + k = enough)%nat -> (1 <= k)%nat ->
    forall total self h,
    exists r,
      forall fuel, (k <= fuel)%nat ->
        collect_loop fuel net
          {| start_date := first_start_date + 7 * Z.of_nat i;
             total_records := total |} self h = Some r.
Proof.
  induction k as [|k IH]; intros i Hik Hk total self h; [lia|].
  set (vars := {| start_date := first_start_date + 7 * Z.of_nat i;
                  total_records := total |}).
  destruct (total_records vars <? TARGET_RECORDS) eqn:T.
  2:{ eexists. intros fuel _. now apply collect_loop_done. }
  destruct (loop_body_spec net vars self h) as (ps & _ & _ & _ & Hvars).
  destruct (returned (loop_body net vars self h)) as [vars'|e] eqn:R.
  2:{ exists (loop_body net vars self h). intros [|fuel] Hf; [lia|].
      rewrite collect_loop_round by exact T. now rewrite R. }
  destruct (Hvars vars' eq_refl) as [Hstart _].
  destruct (year (start_date vars') >? 2025) eqn:Y.
  { exists (loop_body net vars self h). intros [|fuel] Hf; [lia|].
    rewrite collect_loop_round by exact T. now rewrite R, Y. }
  destruct k as [|k].
  { exfalso. assert (i = 104%nat) by (unfold enough in Hik; lia). subst i.
    rewrite Hstart in Y. vm_compute in Y. discriminate. }
  destruct vars' as [sd tr]. cbn [start_date] in Hstart, Y.
  assert (Hsd : sd = first_start_date + 7 * Z.of_nat (S i))
    by (subst sd; unfold vars; cbn [start_date]; lia).
  destruct (IH (S i) ltac:(lia) ltac:(lia) tr
              (self_of (loop_body net vars self h))
              (history_of (loop_body net vars self h))) as [r Hr].
  exists r. intros [|fuel] Hf; [lia|].
  rewrite collect_loop_round by exact T. rewrite R. cbn [start_date]. rewrite Y.
  rewrite Hsd. apply Hr. lia.
Qed.

(** ** Slices *)

Lemma slice_to_map {A B} (f : A -> B) (l : list A) n :
  map f (slice_to l n) = slice_to (map f l) n.
Proof.
  unfold slice_to. rewrite length_map.
  destruct (0 <=? n); now rewrite firstn_map.
Qed.

Lemma slice_to_all {A} (l : list A) n :
  Z.of_nat (List.length l) <= n -> slice_to l n = l.
Proof.
  intros H. unfold slice_to.
  destruct (0 <=? n) eqn:E; [|lia].
  apply firstn_all2. lia.
Qed.

Lemma slice_to_length {A} (l : list A) n :
  0 <= n -> n <= Z.of_nat (List.length l) ->
  Z.of_nat (List.length (slice_to l n)) = n.
Proof.
  intros H0 H. unfold slice_to.
  destruct (0 <=? n) eqn:E; [|lia].
  rewrite length_firstn. lia.
Qed.

Lemma aligned_trim self : aligned self -> aligned (trim self).
Proof.
  unfold aligned, trim; simpl. intros H. now rewrite !slice_to_map, H.
Qed.

Lemma aligned_length self :
  aligned self ->
  List.length (asteroid_data self) = List.length (approach_data self).
Proof.
  unfold aligned. intros H.
  apply (f_equal (@List.length Z)) in H. now rewrite !length_map in H.
Qed.

(** ** The whole run *)

Lemma collect_loop_total net self h :
  exists r n,
    (forall fuel, (enough <= fuel)%nat ->
       collect_loop fuel net initial_locals self h = Some r)
    /\ (n <= enough)%nat
    /\ loop_post net initial_locals self h n r.
Proof.
  destruct (@collect_loop_terminates net enough 0 eq_refl
              ltac:(unfold enough; lia) 0 self h) as [r Hr].
  replace (first_start_date + 7 * Z.of_nat 0) with first_start_date in Hr by lia.
  fold initial_locals in Hr.
  destruct (collect_loop_inv net enough initial_locals self h (Hr enough (le_n _)))
    as (n & Hn & Hpost).
  exists r, n. auto.
Qed.

Lemma window_url_from self k :
  window_url self k = window_from self first_start_date k.
Proof. reflexivity. Qed.

(** ** Properties of the Collection Driver *)

(** C2 (as the code has it): a round whose fetch fails sleeps the long
    delay and still moves the window start 7 days on, so the next fetch is
    for the next window; in every run the k-th fetch asks for the window
    that starts 7k days after 2024-01-01, whatever the earlier fetches
    returned. *)
Theorem collect_data_advances_after_failure net self h :
  (forall vars self0 h0,
     snd (fetch_neo_data net self0 (strftime (start_date vars))
            (strftime (add_days (start_date vars) 6)) h0) = VNone ->
     loop_body net vars self0 h0
     = {| history_of :=
            (h0 ++ [Get (request_url self0 (strftime (start_date vars))
                           (strftime (add_days (start_date vars) 6)));
                    Sleep 5])%list;
          self_of := self0;
          returned := Ok {| start_date := add_days (start_date vars) 7;
                            total_records := total_records vars |} |})
  /\ exists r n,
       collect_data enough net self h = Some r
       /\ (n <= enough)%nat
       /\ requests (history_of r)
          = (requests h ++ map (window_url self) (seq 0 n))%list.
Proof.
  split.
  - intros vars self0 h0 Hnone. unfold loop_body.
    pose proof (fetch_neo_data_history net self0 (strftime (start_date vars))
                  (strftime (add_days (start_date vars) 6)) h0) as Hh.
    destruct (fetch_neo_data net self0 (strftime (start_date vars))
                (strftime (add_days (start_date vars) 6)) h0) as [h1 page].
    simpl in Hh, Hnone. subst h1 page. simpl.
    rewrite <- app_assoc. simpl. unfold add_days.
    do 3 f_equal. lia.
  - destruct (collect_loop_total net self h) as (r & n & Hr & Hn & Hpost).
    destruct Hpost as (ps & _ & _ & _ & Hreq & _).
    unfold collect_data. rewrite (Hr enough (le_n _)).
    destruct (returned r) as [vars|e]; eexists; exists n;
      (split; [reflexivity|]); (split; [exact Hn|]); exact Hreq.
Qed.

(** C10: the loop of [collect_data] comes to an end whatever the network
    answers, within 105 fetches: every round moves the window start 7 days
    on, fetch failed or not, so the loop is left at the latest when the
    start date passes the end of 2025. *)
Theorem collect_data_terminates net self h :
  exists loop_end r n,
    (forall fuel, (enough <= fuel)%nat ->
       collect_loop fuel net initial_locals self h = Some loop_end)
    /\ (forall fuel, (enough <= fuel)%nat ->
          collect_data fuel net self h = Some r)
    /\ (n <= enough)%nat
    /\ List.length (requests (history_of r))
       = (List.length (requests h) + n)%nat
    /\ (forall vars,
          returned loop_end = Ok vars ->
          start_date vars = add_days first_start_date (7 * Z.of_nat n)).
Proof.
  destruct (collect_loop_total net self h) as (r & n & Hr & Hn & Hpost).
  destruct Hpost as (ps & _ & _ & _ & Hreq & Hexit).
  assert (Hlen : List.length (requests (history_of r))
                 = (List.length (requests h) + n)%nat).
  { now rewrite Hreq, length_app, length_map, length_seq. }
  exists r.
  destruct (returned r) as [vars|e] eqn:R.
  - exists {| history_of := history_of r; self_of := trim (self_of r);
              returned := Ok (asteroid_data (trim (self_of r)),
                              approach_data (trim (self_of r))) |}, n.
    split; [exact Hr|].
    split; [intros fuel Hf; unfold collect_data; now rewrite (Hr fuel Hf), R|].
    split; [exact Hn|]. split; [exact Hlen|].
    intros v E. injection E as <-. now destruct (Hexit vars eq_refl) as [-> _].
  - exists {| history_of := history_of r; self_of := self_of r;
              returned := Raise e |}, n.
    split; [exact Hr|].
    split; [intros fuel Hf; unfold collect_data; now rewrite (Hr fuel Hf), R|].
    split; [exact Hn|]. split; [exact Hlen|]. discriminate.
Qed.

Lemma loop_body_raise_normalised net vars self h e :
  returned (loop_body net vars self h) = Raise e -> normalises_invalid_page net.
Proof.
  unfold loop_body.
  pose proof (fetch_neo_data_truthy net self (strftime (start_date vars))
                (strftime (add_days (start_date vars) 6)) h) as Hf.
  destruct (fetch_neo_data net self (strftime (start_date vars))
              (strftime (add_days (start_date vars) 6)) h) as [h1 page].
  simpl in Hf.
  destruct (truthy page) eqn:Htruthy; [|discriminate].
  destruct (Hf eq_refl) as (r & Hnet & Hstatus & Hjson).
  rewrite extract_asteroid_fields_spec.
  pose proof (page_out_is_ok page) as Hv.
  destruct (snd (page_out page)) as [[]|e']; simpl; [discriminate|].
  intros _. do 4 eexists.
  split; [exact Hnet|]. split; [exact Hstatus|]. split; [exact Hjson|].
  split; [exact Htruthy|]. now rewrite <- Hv.
Qed.

(** A run of the loop only raises on a page that reached the normalizer and
    is not valid. *)
Lemma collect_loop_raise net fuel :
  forall vars self h r e,
    collect_loop fuel net vars self h = Some r ->
    returned r = Raise e ->
    normalises_invalid_page net.
Proof.
  induction fuel as [|fuel IH]; intros vars self h r e;
    destruct (total_records vars <? TARGET_RECORDS) eqn:T.
  - now rewrite collect_loop_out_of_fuel.
  - rewrite collect_loop_done by exact T.
    intros E. injection E as <-. discriminate.
  - rewrite collect_loop_round by exact T.
    destruct (returned (loop_body net vars self h)) as [vars'|e'] eqn:R.
    + destruct (year (start_date vars') >? 2025).
      * intros E. injection E as <-. congruence.
      * apply IH.
    + intros E. injection E as <-. intros _.
      eapply loop_body_raise_normalised; eauto.
  - rewrite collect_loop_done by exact T.
    intros E. injection E as <-. discriminate.
Qed.

(** C3: with a target count [T >= 0], whatever the network answers to the
    requests that fail (no answer, an error status with or without a body, a
    body that does not parse or is falsy), and provided the pages that
    reach the normalizer are valid, [collect_data] returns; if at least [T]
    object records were accumulated when the loop was left it returns
    exactly [T] of them, otherwise the loop was left at the 2025 ceiling,
    fewer than [T] are returned and the final slices change nothing. *)
Theorem collect_data_target net self h :
  0 <= TARGET_RECORDS ->
  normalises_valid_pages net ->
  aligned self ->
  exists loop_end vars objects events,
    collect_loop enough net initial_locals self h = Some loop_end
    /\ returned loop_end = Ok vars
    /\ collect_data enough net self h
       = Some {| history_of := history_of loop_end;
                 self_of := trim (self_of loop_end);
                 returned := Ok (objects, events) |}
    /\ (TARGET_RECORDS <= Z.of_nat (List.length (asteroid_data (self_of loop_end))) ->
        Z.of_nat (List.length objects) = TARGET_RECORDS)
    /\ (Z.of_nat (List.length (asteroid_data (self_of loop_end))) < TARGET_RECORDS ->
        2025 < year (start_date vars)
        /\ Z.of_nat (List.length objects) < TARGET_RECORDS
        /\ trim (self_of loop_end) = self_of loop_end).
Proof.
  intros HT Hvalid Hal.
  destruct (collect_loop_total net self h) as (r & n & Hr & Hn & Hpost).
  destruct Hpost as (ps & Hself & _ & Hps & _ & Hexit).
  destruct (returned r) as [vars|e] eqn:R.
  2:{ exfalso.
      destruct (collect_loop_raise net enough initial_locals self h
                  (Hr enough (le_n _)) R)
        as (h0 & url & resp & page & H1 & H2 & H3 & H4 & H5).
      rewrite (Hvalid _ _ _ _ H1 H2 H3 H4) in H5. discriminate. }
  exists r, vars, (asteroid_data (trim (self_of r))),
    (approach_data (trim (self_of r))).
  split; [apply Hr, le_n|]. split; [exact R|].
  split; [unfold collect_data; now rewrite (Hr enough (le_n _)), R|].
  destruct (Hexit vars eq_refl) as (_ & Htotal & Hend).
  assert (Hlen : List.length (asteroid_data (self_of r))
                 = List.length (approach_data (self_of r))).
  { apply aligned_length. rewrite Hself. now apply aligned_push. }
  split.
  - intros Hge. simpl. now apply slice_to_length.
  - intros Hlt. split.
    + destruct Hend as [Hend|[Hend _]]; [|exact Hend].
      unfold initial_locals in Htotal. simpl in Htotal. lia.
    + split.
      * simpl. rewrite slice_to_all by lia. exact Hlt.
      * unfold trim. rewrite !slice_to_all by lia. now destruct (self_of r).
Qed.

(** C5: a run of [collect_data] from an extractor whose two sequences are
    aligned (as after [__init__]) comes to an end, and in what it returns,
    after the two final slices, every approach-event record carries the
    identifier of an object record of the returned object sequence: the one
    at the same position. *)
Theorem collect_data_referential net self h :
  aligned self ->
  exists r,
    collect_data enough net self h = Some r
    /\ forall objects events,
         returned r = Ok (objects, events) ->
         map id objects = map neo_reference_id events
         /\ forall event, In event events ->
              exists object,
                In object objects /\ id object = neo_reference_id event.
Proof.
  intros Hal.
  destruct (collect_loop_total net self h) as (r & n & Hr & Hn & Hpost).
  destruct Hpost as (ps & Hself & _ & Hps & _ & _).
  assert (Hal' : aligned (trim (self_of r))).
  { apply aligned_trim. rewrite Hself. now apply aligned_push. }
  unfold collect_data. rewrite (Hr enough (le_n _)).
  destruct (returned r) as [vars|e]; eexists; (split; [reflexivity|]);
    simpl; intros objects events E; [|discriminate].
  injection E as <- <-. split; [exact Hal'|].
  intros event Hin.
  apply (in_map neo_reference_id) in Hin. rewrite <- Hal' in Hin.
  apply in_map_iff in Hin as (object & Hid & Hobj). eauto.
Qed.


(** ** Properties of the Fetch Client *)

(** C7 (as the code has it): [fetch_neo_data] issues exactly one request.
    It returns the decoded body when the response is 2xx, or any other
    status outside 400..599, and the body parses; it returns [None] when the
    request fails, when the status is 4xx or 5xx, and when the body does not
    parse; a result other than [None] is always such a decoded body. *)
Theorem fetch_neo_data_contract net self s e h :
  fst (fetch_neo_data net self s e h)
  = (h ++ [Get (request_url self s e)])%list
  /\ (net h (request_url self s e) = RequestFailed ->
      snd (fetch_neo_data net self s e h) = VNone)
  /\ (forall r,
        net h (request_url self s e) = Responded r ->
        (forall body, 200 <= status_code r < 300 -> json_body r = Some body ->
                      snd (fetch_neo_data net self s e h) = body)
        /\ (forall body, ~ (400 <= status_code r < 600) ->
                         json_body r = Some body ->
                         snd (fetch_neo_data net self s e h) = body)
        /\ (400 <= status_code r < 600 ->
            snd (fetch_neo_data net self s e h) = VNone)
        /\ (json_body r = None ->
            snd (fetch_neo_data net self s e h) = VNone))
  /\ (snd (fetch_neo_data net self s e h) <> VNone ->
      exists r,
        net h (request_url self s e) = Responded r
        /\ ~ (400 <= status_code r < 600)
        /\ json_body r = Some (snd (fetch_neo_data net self s e h))).
Proof.
  split; [apply fetch_neo_data_history|].
  unfold fetch_neo_data.
  destruct (net h (request_url self s e)) as [|r0] eqn:N.
  - split; [reflexivity|]. split; [discriminate|]. simpl. congruence.
  - split; [discriminate|].
    rewrite raise_for_status_spec.
    destruct ((400 <=? status_code r0) && (status_code r0 <? 600)) eqn:S.
    + apply andb_prop in S as [S1 S2]. split.
      * intros r E. injection E as <-. simpl.
        repeat split; auto; intros; lia.
      * simpl. congruence.
    + assert (Hs : ~ (400 <= status_code r0 < 600)).
      { intros [H1 H2]. apply andb_false_iff in S as [S|S]; lia. }
      split.
      * intros r E. injection E as <-.
        destruct (json_body r0) as [v|]; simpl; repeat split; try congruence;
          intros; lia.
      * intros Hv. exists r0. split; [reflexivity|]. split; [exact Hs|].
        destruct (json_body r0) as [v|]; simpl in *; congruence.
Qed.

(** ** Properties of the Store Writer *)

Lemma bound_rows_length {A} (params_of : A -> list value) records :
  forallb (fun x => is_ok (bind_params (params_of x))) records = true ->
  List.length (bound_rows params_of records) = List.length records.
Proof.
  induction records as [|x records IH]; simpl; intros H; [reflexivity|].
  apply andb_prop in H as [Hx H].
  rewrite length_app, IH by exact H.
  now destruct (bind_params (params_of x)).
Qed.

Lemma insert_all_spec {A} (params_of : A -> list value) records :
  forallb (fun x => is_ok (bind_params (params_of x))) records = true ->
  forall rows,
    insert_all params_of records (Some rows)
    = Ok (Some (rows ++ bound_rows params_of records)%list).
Proof.
  induction records as [|x records IH]; simpl; intros H rows.
  - now rewrite app_nil_r.
  - apply andb_prop in H as [Hx H].
    destruct (bind_params (params_of x)) as [r|e]; [|discriminate].
    simpl. rewrite IH by exact H. now rewrite <- app_assoc.
Qed.

Lemma insert_data_spec asteroid_batch approach_batch rows_a rows_c :
  forallb bindable_asteroid asteroid_batch = true ->
  forallb bindable_approach approach_batch = true ->
  insert_data asteroid_batch approach_batch
    {| asteroids := Some rows_a; close_approach := Some rows_c |}
  = ({| asteroids :=
          Some (rows_a ++ bound_rows asteroid_params asteroid_batch)%list;
        close_approach :=
          Some (rows_c ++ bound_rows approach_params approach_batch)%list |},
     Ok tt).
Proof.
  intros Ha Hc. unfold insert_data. simpl.
  rewrite (insert_all_spec asteroid_params asteroid_batch Ha). simpl.
  rewrite (insert_all_spec approach_params approach_batch Hc). reflexivity.
Qed.

(** C8: on a store whose two tables exist (after [create_tables]), running
    [insert_data] twice on the same batch succeeds twice and leaves every
    record of the batch in its table twice: each table holds the rows it had
    before, then the rows of the batch, then the rows of the batch again, so
    on a new store the row counts are exactly twice the batch sizes. *)
Theorem insert_data_twice_doubles db asteroid_batch approach_batch :
  forallb bindable_asteroid asteroid_batch = true ->
  forallb bindable_approach approach_batch = true ->
  exists db1 db2,
    insert_data asteroid_batch approach_batch (create_tables db) = (db1, Ok tt)
    /\ insert_data asteroid_batch approach_batch db1 = (db2, Ok tt)
    /\ asteroids db2
       = Some (rows_of (asteroids db)
               ++ bound_rows asteroid_params asteroid_batch
               ++ bound_rows asteroid_params asteroid_batch)%list
    /\ close_approach db2
       = Some (rows_of (close_approach db)
               ++ bound_rows approach_params approach_batch
               ++ bound_rows approach_params approach_batch)%list
    /\ row_count (asteroids db2)
       = (row_count (asteroids db) + 2 * List.length asteroid_batch)%nat
    /\ row_count (close_approach db2)
       = (row_count (close_approach db) + 2 * List.length approach_batch)%nat.
Proof.
  intros Ha Hc.
  assert (Hcreate : create_tables db
                    = {| asteroids := Some (rows_of (asteroids db));
                         close_approach := Some (rows_of (close_approach db)) |}).
  { unfold create_tables, create_if_not_exists, rows_of.
    now destruct (asteroids db), (close_approach db). }
  rewrite Hcreate.
  do 2 eexists.
  split; [apply insert_data_spec; assumption|].
  split; [apply insert_data_spec; assumption|].
  simpl. rewrite <- !app_assoc.
  split; [reflexivity|]. split; [reflexivity|].
  rewrite !length_app.
  rewrite (bound_rows_length asteroid_params asteroid_batch Ha).
  rewrite (bound_rows_length approach_params approach_batch Hc).
  unfold row_count, rows_of.
  destruct (asteroids db), (close_approach db); simpl; split; lia.
Qed.

(** * Further properties of the code *)

(** ** The Record Normalizer on arbitrary pages *)

(** X1: whatever the page, valid or not, and whether it returns or raises,
    the normalizer only appends: the credentials and the records already
    accumulated are kept, the two sequences grow by the same number of
    records, which agree position by position on the identifier, and what
    is appended and how the call ends do not depend on the accumulators. *)
Theorem extract_asteroid_fields_appends page self :
  exists objects events,
    api_key (fst (extract_asteroid_fields page self)) = api_key self
    /\ base_url (fst (extract_asteroid_fields page self)) = base_url self
    /\ asteroid_data (fst (extract_asteroid_fields page self))
       = (asteroid_data self ++ objects)%list
    /\ approach_data (fst (extract_asteroid_fields page self))
       = (approach_data self ++ events)%list
    /\ List.length objects = List.length events
    /\ map id objects = map neo_reference_id events
    /\ forall other,
         asteroid_data (fst (extract_asteroid_fields page other))
         = (asteroid_data other ++ objects)%list
         /\ approach_data (fst (extract_asteroid_fields page other))
            = (approach_data other ++ events)%list
         /\ snd (extract_asteroid_fields page other)
            = snd (extract_asteroid_fields page self).
Proof.
  exists (map fst (fst (page_out page))), (map snd (fst (page_out page))).
  rewrite extract_asteroid_fields_spec. simpl.
  repeat split; try reflexivity.
  - now rewrite !length_map.
  - pose proof (page_out_linked page) as H.
    induction H as [|p ps Hp _ IH]; simpl; [reflexivity|].
    now rewrite Hp, IH.
  - now rewrite extract_asteroid_fields_spec.
  - now rewrite extract_asteroid_fields_spec.
  - now rewrite extract_asteroid_fields_spec.
Qed.

Lemma valid_objects_in_order (objects : list value) :
  forallb valid_asteroid objects = true ->
  Forall2 (fun entry p =>
             asteroid_info_of (fst entry) = Ok (fst p)
             /\ approach_info_of (fst entry) (snd entry) = Ok (snd p))
    (flat_map (fun asteroid =>
                 map (fun approach => (asteroid, approach))
                     (close_approaches asteroid)) objects)
    (flat_map (fun a => fst (asteroid_out a)) objects).
Proof.
  induction objects as [|a objects IH]; simpl; intros H; [constructor|].
  apply andb_prop in H as [Ha H].
  apply Forall2_app; [|now apply IH].
  destruct (asteroid_out_valid a Ha) as (info & ps & Hinfo & Hps & E).
  rewrite E. simpl. clear E Ha.
  induction Hps as [|c p cad ps Hc _ IH']; simpl; constructor; auto.
Qed.

(** X2: on a valid page the records are appended in page order: dates in
    the order of the page, object records in list order under each date,
    close approaches in list order under each object; the k-th appended
    pair is the object record and the approach record of the k-th
    (object, close approach) entry of the page. *)
Theorem extract_keeps_page_order page self :
  valid_page page = true ->
  exists pairs,
    extract_asteroid_fields page self = (push self pairs, Ok tt)
    /\ Forall2 (fun entry p =>
                  asteroid_info_of (fst entry) = Ok (fst p)
                  /\ approach_info_of (fst entry) (snd entry) = Ok (snd p))
         (approach_entries page) pairs.
Proof.
  intros Hpage. destruct (page_out_valid page Hpage) as [Hout Hall].
  exists (flat_map (fun a => fst (asteroid_out a)) (objects_of page)).
  rewrite extract_asteroid_fields_spec, Hout. simpl.
  split; [reflexivity|]. now apply valid_objects_in_order.
Qed.

(** X3: an object record whose close-approach list is empty leaves no
    record at all, neither an object record nor an approach record; its
    required fields are checked all the same, and a missing one still
    raises. *)
Theorem object_without_approaches asteroid self :
  close_approach_list asteroid = Ok [] ->
  (asteroid_fields_ok asteroid = true ->
   asteroid_body asteroid self = (self, Ok tt))
  /\ (asteroid_fields_ok asteroid = false ->
      exists e, asteroid_body asteroid self = (self, Raise e)).
Proof.
  intros Hcad. rewrite asteroid_body_spec. unfold asteroid_out.
  rewrite asteroid_fields_ok_spec, Hcad.
  destruct (asteroid_info_of asteroid) as [info|e]; simpl; rewrite push_nil;
    split; intros H; try discriminate; eauto.
Qed.

Lemma magnitude_of asteroid info :
  asteroid_info_of asteroid = Ok info ->
  rbind (dict_get asteroid "absolute_magnitude_h" (VInt 0)) py_float
  = Ok (absolute_magnitude_h info).
Proof.
  unfold asteroid_info_of, rbind.
  case_results; intros H; try discriminate.
  injection H as <-. reflexivity.
Qed.

(** X4: [absolute_magnitude_h] is the one field with a default.  When the
    key is absent the record gets [float(0)]; when the key is present its
    value is coerced, so an explicit [null] makes the record fail. *)
Theorem absolute_magnitude_default (d : list (string * value)) :
  (lookup "absolute_magnitude_h" d = None ->
   forall info,
     asteroid_info_of (VDict d) = Ok info ->
     float_of_int 0 = Ok (absolute_magnitude_h info))
  /\ (forall v,
        lookup "absolute_magnitude_h" d = Some v ->
        forall info,
          asteroid_info_of (VDict d) = Ok info ->
          py_float v = Ok (absolute_magnitude_h info))
  /\ (lookup "absolute_magnitude_h" d = Some VNone ->
      is_ok (asteroid_info_of (VDict d)) = false).
Proof.
  split; [|split].
  - intros Hd info Hinfo. apply magnitude_of in Hinfo.
    unfold dict_get in Hinfo. now rewrite Hd in Hinfo.
  - intros v Hd info Hinfo. apply magnitude_of in Hinfo.
    unfold dict_get in Hinfo. now rewrite Hd in Hinfo.
  - intros Hd. destruct (asteroid_info_of (VDict d)) as [info|e] eqn:E;
      [|reflexivity].
    apply magnitude_of in E. unfold dict_get in E. rewrite Hd in E.
    discriminate.
Qed.

Lemma run_pairs_stops {A} (out : A -> list pair * result unit)
    (good : list A) (bad : A) (rest : list A) e :
  (forall x, In x good -> snd (out x) = Ok tt) ->
  out bad = ([], Raise e) ->
  run_pairs out (good ++ bad :: rest)
  = (flat_map (fun x => fst (out x)) good, Raise e).
Proof.
  intros Hgood Hbad. induction good as [|x good IH]; simpl.
  - now rewrite Hbad.
  - pose proof (Hgood x (or_introl eq_refl)) as Hx.
    destruct (out x) as [ps r]; simpl in Hx; subst r.
    rewrite IH by (intros y Hy; apply Hgood; now right).
    reflexivity.
Qed.

(** X5: the normalizer is not all-or-nothing.  When the object records
    under a date are valid up to one with a missing or non-coercible
    required field, the records of the valid ones before it are already
    appended when the exception leaves; the malformed one and those after
    it leave nothing. *)
Theorem date_body_stops_at_first_malformed entry good bad rest self :
  iter (snd entry) = Ok (good ++ bad :: rest)%list ->
  forallb valid_asteroid good = true ->
  asteroid_fields_ok bad = false ->
  exists e,
    date_body entry self
    = (push self (flat_map (fun a => fst (asteroid_out a)) good), Raise e)
    /\ List.length (flat_map (fun a => fst (asteroid_out a)) good)
       = list_sum (map (fun a => List.length (close_approaches a)) good).
Proof.
  intros Hit Hgood Hbad.
  rewrite asteroid_fields_ok_spec in Hbad.
  assert (Hout : exists e, asteroid_out bad = ([], Raise e)).
  { unfold asteroid_out.
    destruct (asteroid_info_of bad) as [info|e]; [discriminate|eauto]. }
  destruct Hout as [e He]. exists e.
  rewrite date_body_spec. unfold date_out. rewrite Hit.
  rewrite (run_pairs_stops asteroid_out good bad rest (e := e)).
  - split; [reflexivity|]. now apply appended_count.
  - intros a Ha. apply is_ok_unit. rewrite asteroid_out_is_ok.
    rewrite forallb_forall in Hgood. auto.
  - exact He.
Qed.

(** ** The rounds of the Collection Driver *)

Lemma loop_body_falsy net vars self h :
  truthy (snd (fetch_neo_data net self (strftime (start_date vars))
                 (strftime (add_days (start_date vars) 6)) h)) = false ->
  loop_body net vars self h
  = {| history_of :=
         (h ++ [Get (request_url self (strftime (start_date vars))
                       (strftime (add_days (start_date vars) 6)));
                Sleep 5])%list;
       self_of := self;
       returned := Ok {| start_date := add_days (start_date vars) 7;
                         total_records := total_records vars |} |}.
Proof.
  intros Hfalsy. unfold loop_body.
  pose proof (fetch_neo_data_history net self (strftime (start_date vars))
                (strftime (add_days (start_date vars) 6)) h) as Hh.
  destruct (fetch_neo_data net self (strftime (start_date vars))
              (strftime (add_days (start_date vars) 6)) h) as [h1 page].
  simpl in Hh, Hfalsy. subst h1. rewrite Hfalsy.
  rewrite <- app_assoc. simpl. unfold add_days.
  do 3 f_equal. lia.
Qed.

(** X6: a fetch that succeeds with a body Python takes for false (JSON
    [null], [false], [0], an empty string, array or object) is handled as a
    failed fetch: the round does not normalise anything, sleeps the long
    delay and moves on to the next window. *)
Theorem falsy_body_is_a_failed_fetch net vars self h r body :
  net h (request_url self (strftime (start_date vars))
           (strftime (add_days (start_date vars) 6))) = Responded r ->
  raise_for_status r = false ->
  json_body r = Some body ->
  truthy body = false ->
  loop_body net vars self h
  = {| history_of :=
         (h ++ [Get (request_url self (strftime (start_date vars))
                       (strftime (add_days (start_date vars) 6)));
                Sleep 5])%list;
       self_of := self;
       returned := Ok {| start_date := add_days (start_date vars) 7;
                         total_records := total_records vars |} |}.
Proof.
  intros Hnet Hstatus Hbody Hfalsy. apply loop_body_falsy.
  unfold fetch_neo_data. rewrite Hnet, Hstatus, Hbody. exact Hfalsy.
Qed.

(** The events a round adds: a request and a sleep, or the request alone
    when the normalizer raised. *)
Lemma loop_body_history net vars self h :
  exists url,
    match returned (loop_body net vars self h) with
    | Ok _ =>
        exists seconds,
          (seconds = 1 \/ seconds = 5)
          /\ history_of (loop_body net vars self h)
             = (h ++ [Get url; Sleep seconds])%list
    | Raise _ => history_of (loop_body net vars self h) = (h ++ [Get url])%list
    end.
Proof.
  exists (request_url self (strftime (start_date vars))
            (strftime (add_days (start_date vars) 6))).
  unfold loop_body.
  pose proof (fetch_neo_data_history net self (strftime (start_date vars))
                (strftime (add_days (start_date vars) 6)) h) as Hh.
  destruct (fetch_neo_data net self (strftime (start_date vars))
              (strftime (add_days (start_date vars) 6)) h) as [h1 page].
  simpl in Hh. subst h1.
  destruct (truthy page).
  - destruct (extract_asteroid_fields page self) as [self' [[]|e]]; simpl.
    + exists 1. split; [now left|]. now rewrite <- app_assoc.
    + reflexivity.
  - simpl. exists 5. split; [now right|]. now rewrite <- app_assoc.
Qed.

Lemma collect_loop_history net fuel :
  forall vars self h r,
    collect_loop fuel net vars self h = Some r ->
    exists new,
      history_of r = (h ++ new)%list
      /\ match returned r with
         | Ok _ => whole_rounds new = true
         | Raise _ =>
             exists rounds url,
               new = (rounds ++ [Get url])%list /\ whole_rounds rounds = true
         end.
Proof.
  induction fuel as [|fuel IH]; intros vars self h r;
    destruct (total_records vars <? TARGET_RECORDS) eqn:T.
  - now rewrite collect_loop_out_of_fuel.
  - rewrite collect_loop_done by exact T. intros E. injection E as <-.
    exists []. simpl. now rewrite app_nil_r.
  - rewrite collect_loop_round by exact T.
    destruct (loop_body_history net vars self h) as [url Hround].
    destruct (returned (loop_body net vars self h)) as [vars'|e] eqn:R.
    + destruct Hround as (seconds & Hs & Hh).
      assert (Hok : ((seconds =? 1) || (seconds =? 5)) = true)
        by (destruct Hs; subst; reflexivity).
      destruct (year (start_date vars') >? 2025).
      * intros E. injection E as <-. rewrite R.
        exists [Get url; Sleep seconds]. split; [exact Hh|].
        simpl. now rewrite Hok.
      * intros E. apply IH in E as (new & Hnew & Hend).
        exists ([Get url; Sleep seconds] ++ new)%list.
        split; [now rewrite Hnew, Hh, <- app_assoc|].
        destruct (returned r) as [v|e'].
        -- simpl. now rewrite Hok.
        -- destruct Hend as (rounds & url' & -> & Hrounds).
           exists ([Get url; Sleep seconds] ++ rounds)%list, url'.
           split; [now rewrite <- app_assoc|]. simpl. now rewrite Hok.
    + intros E. injection E as <-. rewrite R.
      exists [Get url]. split; [exact Hround|]. exists [], url. auto.
  - rewrite collect_loop_done by exact T. intros E. injection E as <-.
    exists []. simpl. now rewrite app_nil_r.
Qed.

(** X7: every run paces its requests: what it adds to the history is a
    sequence of whole rounds, each one request followed by a sleep of 1 or
    5 seconds, so no two requests are issued back to back; only a run that
    a malformed page aborts ends on a request that no sleep follows. *)
Theorem collect_data_paces_requests net self h :
  exists r new,
    collect_data enough net self h = Some r
    /\ history_of r = (h ++ new)%list
    /\ match returned r with
       | Ok _ => whole_rounds new = true
       | Raise _ =>
           exists rounds url,
             new = (rounds ++ [Get url])%list /\ whole_rounds rounds = true
       end.
Proof.
  destruct (collect_loop_total net self h) as (r & n & Hr & _ & _).
  destruct (collect_loop_history net enough initial_locals self h
              (Hr enough (le_n _))) as (new & Hnew & Hend).
  unfold collect_data. rewrite (Hr enough (le_n _)).
  destruct (returned r) as [vars|e]; eexists; exists new;
    (split; [reflexivity|]); (split; [exact Hnew|]); exact Hend.
Qed.

Lemma trim_nothing self :
  asteroid_data self = [] -> approach_data self = [] -> trim self = self.
Proof.
  destruct self as [k u a p]. simpl. intros -> ->.
  unfold trim, slice_to. simpl.
  destruct (0 <=? TARGET_RECORDS); now rewrite !firstn_nil.
Qed.

(** X8: with a target count of zero or less the loop is never entered: no
    request is made and nothing is slept, whatever the fuel; the method
    returns the accumulators as sliced by [[:TARGET_RECORDS]], which for a
    new extractor are two empty lists. *)
Theorem collect_data_without_target fuel net self h :
  TARGET_RECORDS <= 0 ->
  collect_data fuel net self h
  = Some {| history_of := h;
            self_of := trim self;
            returned := Ok (asteroid_data (trim self),
                            approach_data (trim self)) |}
  /\ collect_data fuel net init h
     = Some {| history_of := h; self_of := init; returned := Ok ([], []) |}.
Proof.
  intros HT.
  assert (Hdone : forall s,
             collect_data fuel net s h
             = Some {| history_of := h; self_of := trim s;
                       returned := Ok (asteroid_data (trim s),
                                       approach_data (trim s)) |}).
  { intros s. unfold collect_data. rewrite collect_loop_done; [reflexivity|].
    unfold initial_locals. simpl. apply Z.ltb_ge. exact HT. }
  split; [apply Hdone|].
  rewrite Hdone. now rewrite (trim_nothing init eq_refl eq_refl).
Qed.

(** ** The windows of a run *)

Lemma year_of_the_windows :
  forallb (fun j => negb (year (first_start_date + 7 * Z.of_nat j) >? 2025))
          (seq 0 enough) = true
  /\ (year (first_start_date + 7 * Z.of_nat enough) >? 2025) = true.
Proof. split; vm_compute; reflexivity. Qed.

Lemma year_within (j : nat) :
  (j < enough)%nat ->
  (year (first_start_date + 7 * Z.of_nat j) >? 2025) = false.
Proof.
  intros Hj. destruct year_of_the_windows as [H _].
  rewrite forallb_forall in H.
  specialize (H j ltac:(apply in_seq; lia)).
  now apply negb_true_iff in H.
Qed.

Lemma idle_rounds_requests self i k :
  requests (idle_rounds self i k) = map (window_url self) (seq i k).
Proof.
  unfold idle_rounds. generalize (seq i k) as js.
  induction js as [|j js IH]; simpl; [reflexivity|]. now rewrite IH.
Qed.

Lemma idle_rounds_slept self i k :
  slept (idle_rounds self i k) = 5 * Z.of_nat k.
Proof.
  unfold idle_rounds. revert i.
  induction k as [|k IH]; intros i; [reflexivity|].
  cbn [seq flat_map app slept]. rewrite IH. lia.
Qed.

Lemma slept_app h1 h2 : slept (h1 ++ h2) = slept h1 + slept h2.
Proof.
  induction h1 as [|[url|n] h1 IH]; simpl; [reflexivity|exact IH|].
  rewrite IH. lia.
Qed.

Lemma collect_loop_idle net :
  never_serves net ->
  forall k i,
    (i + k = enough)%nat -> (1 <= k)%nat ->
    forall total self h,
      total < TARGET_RECORDS ->
      collect_loop k net
        {| start_date := first_start_date + 7 * Z.of_nat i;
           total_records := total |} self h
      = Some {| history_of := (h ++ idle_rounds self i k)%list;
                self_of := self;
                returned :=
                  Ok {| start_date := first_start_date + 7 * Z.of_nat enough;
                        total_records := total |} |}.
Proof.
  intros Hidle.
  induction k as [|k IH]; intros i Hik Hk total self h HT; [lia|].
  set (vars := {| start_date := first_start_date + 7 * Z.of_nat i;
                  total_records := total |}).
  assert (T : (total_records vars <? TARGET_RECORDS) = true)
    by (apply Z.ltb_lt; exact HT).
  rewrite collect_loop_round by exact T.
  rewrite (loop_body_falsy net vars self h) by apply Hidle.
  cbn [returned start_date history_of self_of total_records vars].
  assert (Hnext : add_days (first_start_date + 7 * Z.of_nat i) 7
                  = first_start_date + 7 * Z.of_nat (S i))
    by (unfold add_days; lia).
  assert (Hurl : request_url self (strftime (first_start_date + 7 * Z.of_nat i))
                   (strftime (add_days (first_start_date + 7 * Z.of_nat i) 6))
                 = window_url self i) by reflexivity.
  rewrite Hnext, Hurl.
  destruct k as [|k].
  - assert (S i = enough) by lia.
    replace (S i) with enough by lia.
    destruct year_of_the_windows as [_ ->].
    unfold idle_rounds. simpl. reflexivity.
  - rewrite year_within by lia.
    rewrite (IH (S i)) by (lia || exact HT).
    unfold idle_rounds. cbn [seq flat_map].
    now rewrite <- app_assoc.
Qed.

(** X9: when nothing is ever served (every fetch fails or comes back with a
    falsy body) and the target count is positive, a run makes exactly 105
    requests, one for each window from 2024-01-01 on, sleeps 5 seconds after
    each (525 seconds in all), leaves the accumulators as they were and
    returns them sliced. *)
Theorem collect_data_when_nothing_is_served net self h :
  0 < TARGET_RECORDS ->
  never_serves net ->
  exists r,
    collect_data enough net self h = Some r
    /\ requests (history_of r)
       = (requests h ++ map (window_url self) (seq 0 105))%list
    /\ slept (history_of r) = slept h + 525
    /\ self_of r = trim self
    /\ returned r = Ok (asteroid_data (trim self), approach_data (trim self)).
Proof.
  intros HT Hidle.
  pose proof (@collect_loop_idle net Hidle enough 0 eq_refl
                ltac:(unfold enough; lia) 0 self h HT) as Hrun.
  replace (first_start_date + 7 * Z.of_nat 0) with first_start_date in Hrun
    by lia.
  fold initial_locals in Hrun.
  unfold collect_data. rewrite Hrun. cbn [returned history_of self_of].
  eexists. split; [reflexivity|]. cbn [returned history_of self_of].
  rewrite requests_app, idle_rounds_requests, slept_app, idle_rounds_slept.
  repeat split; reflexivity.
Qed.

Lemma slice_to_app_exact {A} (l l' : list A) n :
  Z.of_nat (List.length l) = n -> slice_to (l ++ l') n = l.
Proof.
  intros H. unfold slice_to.
  destruct (0 <=? n) eqn:E; [|lia].
  replace (Z.to_nat n) with (List.length l + 0)%nat by lia.
  rewrite firstn_app_2. simpl. now rewrite app_nil_r.
Qed.

(** X10: calling [collect_data] again on an extractor that already holds
    exactly the target count of records gives the same records back: the
    count starts from zero, so at least one more window is fetched, but
    what it adds comes after the first [TARGET_RECORDS] records and the
    final slices drop it. *)
Theorem collect_data_again net self h :
  Z.of_nat (List.length (asteroid_data self)) = TARGET_RECORDS ->
  List.length (approach_data self) = List.length (asteroid_data self) ->
  exists r,
    collect_data enough net self h = Some r
    /\ forall objects events,
         returned r = Ok (objects, events) ->
         objects = asteroid_data self /\ events = approach_data self.
Proof.
  intros Hfull Hsame.
  destruct (collect_loop_total net self h) as (r & n & Hr & _ & Hpost).
  destruct Hpost as (ps & Hself & _).
  unfold collect_data. rewrite (Hr enough (le_n _)).
  destruct (returned r) as [vars|e]; eexists; (split; [reflexivity|]);
    cbn [returned]; intros objects events E; [|discriminate].
  injection E as <- <-. rewrite Hself. unfold trim, push. simpl.
  split; apply slice_to_app_exact; lia.
Qed.

(** X12: for a target count [T >= 0], and whatever the network answers, a
    run never returns more than [T] object records, and the two returned
    sequences have the same length. *)
Theorem collect_data_at_most_target net self h :
  0 <= TARGET_RECORDS ->
  List.length (approach_data self) = List.length (asteroid_data self) ->
  exists r,
    collect_data enough net self h = Some r
    /\ forall objects events,
         returned r = Ok (objects, events) ->
         List.length objects = List.length events
         /\ Z.of_nat (List.length objects) <= TARGET_RECORDS.
Proof.
  intros HT Hsame.
  destruct (collect_loop_total net self h) as (r & n & Hr & _ & Hpost).
  destruct Hpost as (ps & Hself & _).
  unfold collect_data. rewrite (Hr enough (le_n _)).
  destruct (returned r) as [vars|e]; eexists; (split; [reflexivity|]);
    cbn [returned]; intros objects events E; [|discriminate].
  injection E as <- <-. rewrite Hself. unfold trim, push, slice_to. simpl.
  destruct (0 <=? TARGET_RECORDS) eqn:E0; [|lia].
  rewrite !length_firstn, !length_app, !length_map. lia.
Qed.

(** ** No window twice *)

Lemma string_app_cancel (p x y : string) :
  (p ++ x)%string = (p ++ y)%string -> x = y.
Proof.
  induction p as [|c p IH]; simpl; intros H; [exact H|].
  injection H as H. auto.
Qed.

Lemma string_app_same_length (a b x y : string) :
  String.length a = String.length b ->
  (a ++ x)%string = (b ++ y)%string -> a = b.
Proof.
  revert b. induction a as [|c a IH]; intros [|c' b]; simpl; intros Hlen H;
    try discriminate; [reflexivity|].
  injection H as -> H. f_equal. apply IH; [lia | exact H].
Qed.

Lemma string_length_app (a b : string) :
  String.length (a ++ b) = (String.length a + String.length b)%nat.
Proof. induction a as [|c a IH]; simpl; [reflexivity | now rewrite IH]. Qed.

Lemma zero_padded_length width z : String.length (zero_padded width z) = width.
Proof.
  revert z. induction width as [|w IH]; intros z; simpl; [reflexivity|].
  rewrite string_length_app, IH. simpl. lia.
Qed.

(** Every date is written with ten characters. *)
Lemma strftime_length d : String.length (strftime d) = 10%nat.
Proof.
  unfold strftime. destruct (ord2ymd d) as [[y m] dd].
  rewrite !string_length_app, !zero_padded_length. reflexivity.
Qed.

Lemma request_url_start self s e s' e' :
  String.length s = String.length s' ->
  request_url self s e = request_url self s' e' -> s = s'.
Proof.
  unfold request_url. intros Hlen H.
  apply string_app_cancel in H. simpl in H. 
  repeat (injection H as H).
  eapply string_app_same_length; eauto.
Qed.

Lemma distinct_strings_NoDup (l : list string) :
  distinct_strings l = true -> NoDup l.
Proof.
  induction l as [|x l IH]; simpl; intros H; [constructor|].
  apply andb_prop in H as [Hx Hl]. constructor; [|auto].
  intros Hin. apply negb_true_iff in Hx.
  assert (existsb (String.eqb x) l = true); [|congruence].
  apply existsb_exists. exists x. split; [exact Hin | apply String.eqb_refl].
Qed.

Lemma NoDup_map_finer {A B C} (f : A -> B) (g : A -> C) (l : list A) :
  (forall x y, g x = g y -> f x = f y) ->
  NoDup (map f l) -> NoDup (map g l).
Proof.
  intros Hfg. induction l as [|x l IH]; simpl; intros H; [constructor|].
  inversion H as [|? ? Hx Hl]; subst. constructor; [|auto].
  intros Hin. apply Hx.
  apply in_map_iff in Hin as (y & Hy & Hin).
  apply in_map_iff. exists y. split; [|exact Hin]. symmetry. now apply Hfg.
Qed.

Lemma start_dates_distinct :
  NoDup (map (fun j => strftime (first_start_date + 7 * Z.of_nat j))
             (seq 0 enough)).
Proof. apply distinct_strings_NoDup. vm_compute. reflexivity. Qed.

Lemma windows_distinct self n :
  (n <= enough)%nat -> NoDup (map (window_url self) (seq 0 n)).
Proof.
  intros Hn.
  apply NoDup_map_finer
    with (f := fun j => strftime (first_start_date + 7 * Z.of_nat j)).
  - intros j k H. unfold window_url, add_days in H.
    eapply request_url_start; [|exact H]. now rewrite !strftime_length.
  - pose proof start_dates_distinct as H.
    replace enough with (n + (enough - n))%nat in H by lia.
    rewrite seq_app, map_app in H. now apply NoDup_app_remove_r in H.
Qed.

(** X11: a run never asks for the same window twice: the URLs it requests
    are pairwise different, whatever the network answers. *)
Theorem collect_data_never_repeats_a_window net self h :
  exists r new,
    collect_data enough net self h = Some r
    /\ requests (history_of r) = (requests h ++ new)%list
    /\ (List.length new <= 105)%nat
    /\ NoDup new.
Proof.
  destruct (collect_loop_total net self h) as (r & n & Hr & Hn & Hpost).
  destruct Hpost as (ps & _ & _ & _ & Hreq & _).
  unfold collect_data. rewrite (Hr enough (le_n _)).
  destruct (returned r) as [vars|e]; eexists;
    exists (map (window_url self) (seq 0 n));
    (split; [reflexivity|]); (split; [exact Hreq|]);
    (split; [rewrite length_map, length_seq; exact Hn|]);
    now apply windows_distinct.
Qed.

(** ** The Store Writer on arbitrary batches *)

Lemma insert_all_nil_table {A} (params_of : A -> list value) records :
  insert_all params_of records None
  = match records with
    | [] => Ok None
    | _ => Raise OperationalError
    end.
Proof. now destruct records. Qed.

Lemma insert_all_is_ok {A} (params_of : A -> list value) records rows :
  is_ok (insert_all params_of records (Some rows))
  = forallb (fun x => is_ok (bind_params (params_of x))) records.
Proof.
  revert rows. induction records as [|x records IH]; intros rows; simpl;
    [reflexivity|].
  destruct (bind_params (params_of x)) as [r|e]; simpl; [apply IH|reflexivity].
Qed.

Lemma insert_all_cases {A} (params_of : A -> list value) records table :
  (table_ready table records
   && forallb (fun x => is_ok (bind_params (params_of x))) records = true
   /\ exists table',
        insert_all params_of records table = Ok table'
        /\ rows_of table' = (rows_of table ++ bound_rows params_of records)%list
        /\ List.length (bound_rows params_of records) = List.length records
        /\ (table = None <-> table' = None))
  \/ (table_ready table records
      && forallb (fun x => is_ok (bind_params (params_of x))) records = false
      /\ exists e, insert_all params_of records table = Raise e).
Proof.
  destruct table as [rows|].
  - destruct (forallb (fun x => is_ok (bind_params (params_of x))) records)
      eqn:B.
    + left. split; [now destruct records|].
      exists (Some (rows ++ bound_rows params_of records)%list).
      rewrite insert_all_spec by exact B.
      split; [reflexivity|]. split; [reflexivity|].
      split; [now apply bound_rows_length|]. split; discriminate.
    + right. split; [now destruct records|].
      pose proof (insert_all_is_ok params_of records rows) as H.
      rewrite B in H.
      destruct (insert_all params_of records (Some rows)); [discriminate|eauto].
  - rewrite insert_all_nil_table. destruct records as [|x records].
    + left. split; [reflexivity|]. exists None. simpl. tauto.
    + right. split; [reflexivity|]. eauto.
Qed.

Lemma insert_data_cases asteroid_batch approach_batch db :
  (table_ready (asteroids db) asteroid_batch
   && forallb bindable_asteroid asteroid_batch
   && (table_ready (close_approach db) approach_batch
       && forallb bindable_approach approach_batch) = true
   /\ exists db',
        insert_data asteroid_batch approach_batch db = (db', Ok tt)
        /\ rows_of (asteroids db')
           = (rows_of (asteroids db)
              ++ bound_rows asteroid_params asteroid_batch)%list
        /\ rows_of (close_approach db')
           = (rows_of (close_approach db)
              ++ bound_rows approach_params approach_batch)%list
        /\ List.length (bound_rows asteroid_params asteroid_batch)
           = List.length asteroid_batch
        /\ List.length (bound_rows approach_params approach_batch)
           = List.length approach_batch
        /\ (asteroids db = None <-> asteroids db' = None)
        /\ (close_approach db = None <-> close_approach db' = None))
  \/ (table_ready (asteroids db) asteroid_batch
      && forallb bindable_asteroid asteroid_batch
      && (table_ready (close_approach db) approach_batch
          && forallb bindable_approach approach_batch) = false
      /\ exists e,
           insert_data asteroid_batch approach_batch db = (db, Raise e)).
Proof.
  unfold insert_data, rbind, bindable_asteroid, bindable_approach.
  destruct (insert_all_cases asteroid_params asteroid_batch (asteroids db))
    as [[-> (ta & -> & Ra & La & Na)]|[-> (e & ->)]];
    [|right; simpl; eauto].
  destruct (insert_all_cases approach_params approach_batch (close_approach db))
    as [[-> (tc & -> & Rc & Lc & Nc)]|[-> (e & ->)]];
    [|right; simpl; eauto].
  left. split; [reflexivity|]. eexists. split; [reflexivity|].
  simpl. auto 10.
Qed.

Lemma row_count_rows_of (table : option (list row)) :
  row_count table = List.length (rows_of table).
Proof. now destruct table. Qed.

Lemma create_tables_eq db :
  create_tables db
  = {| asteroids := Some (rows_of (asteroids db));
       close_approach := Some (rows_of (close_approach db)) |}.
Proof.
  unfold create_tables, create_if_not_exists, rows_of.
  now destruct (asteroids db), (close_approach db).
Qed.

(** X13: [insert_data] is all or nothing.  It succeeds exactly when each
    batch that is not empty has its table and every record of both batches
    binds; when it raises, the store is left exactly as it was, also when
    the object records had all been inserted before an approach record
    failed. *)
Theorem insert_data_all_or_nothing asteroid_batch approach_batch db :
  is_ok (snd (insert_data asteroid_batch approach_batch db))
  = table_ready (asteroids db) asteroid_batch
    && forallb bindable_asteroid asteroid_batch
    && (table_ready (close_approach db) approach_batch
        && forallb bindable_approach approach_batch)
  /\ (is_ok (snd (insert_data asteroid_batch approach_batch db)) = false ->
      fst (insert_data asteroid_batch approach_batch db) = db).
Proof.
  destruct (insert_data_cases asteroid_batch approach_batch db)
    as [[-> (db' & -> & _)]|[-> (e & ->)]]; simpl.
  - split; [reflexivity|discriminate].
  - split; reflexivity.
Qed.

(** X14: when [insert_data] returns, it has only appended: each table keeps
    the rows it had, in order, followed by one new row per record of the
    batch, in batch order; a table that did not exist still does not
    exist. *)
Theorem insert_data_appends asteroid_batch approach_batch db db' :
  insert_data asteroid_batch approach_batch db = (db', Ok tt) ->
  rows_of (asteroids db')
  = (rows_of (asteroids db) ++ bound_rows asteroid_params asteroid_batch)%list
  /\ rows_of (close_approach db')
     = (rows_of (close_approach db)
        ++ bound_rows approach_params approach_batch)%list
  /\ row_count (asteroids db')
     = (row_count (asteroids db) + List.length asteroid_batch)%nat
  /\ row_count (close_approach db')
     = (row_count (close_approach db) + List.length approach_batch)%nat
  /\ (asteroids db = None <-> asteroids db' = None)
  /\ (close_approach db = None <-> close_approach db' = None).
Proof.
  intros E.
  destruct (insert_data_cases asteroid_batch approach_batch db)
    as [[_ (db0 & E0 & Ra & Rc & La & Lc & Na & Nc)]|[_ (e & E0)]];
    rewrite E0 in E; [|discriminate].
  injection E as <-.
  split; [exact Ra|]. split; [exact Rc|].
  rewrite !row_count_rows_of, Ra, Rc, !length_app, La, Lc. auto.
Qed.

(** X15: without [create_tables] first, inserting a batch that is not empty
    raises [OperationalError] (no such table) and stores nothing, whether or
    not its records bind; two empty batches go through, and leave the store
    as it was, even when the tables do not exist. *)
Theorem insert_data_without_tables asteroid_batch approach_batch db :
  (asteroids db = None -> asteroid_batch <> [] ->
   insert_data asteroid_batch approach_batch db = (db, Raise OperationalError))
  /\ (close_approach db = None -> approach_batch <> [] ->
      forallb bindable_asteroid asteroid_batch = true ->
      asteroids db <> None ->
      insert_data asteroid_batch approach_batch db
      = (db, Raise OperationalError))
  /\ insert_data [] [] db = (db, Ok tt).
Proof.
  unfold insert_data, rbind. split; [|split].
  - intros -> Hne. rewrite insert_all_nil_table.
    now destruct asteroid_batch.
  - intros -> Hne Hbind Ha.
    destruct (asteroids db) as [rows|]; [|congruence].
    rewrite insert_all_spec by exact Hbind.
    rewrite insert_all_nil_table. now destruct approach_batch.
  - simpl. now destruct db.
Qed.

Lemma insert_all_app {A} (params_of : A -> list value) xs ys table :
  insert_all params_of (xs ++ ys) table
  = rbind (insert_all params_of xs table) (insert_all params_of ys).
Proof.
  revert table. induction xs as [|x xs IH]; intros table; simpl;
    [reflexivity|].
  destruct (execute_insert table (params_of x)) as [t|e]; simpl;
    [apply IH|reflexivity].
Qed.

(** X16: batches compose: inserting one batch and then another, both with
    success, leaves the store that inserting the two batches joined, in one
    call, leaves. *)
Theorem insert_data_in_two_batches a1 p1 a2 p2 db db1 db2 :
  insert_data a1 p1 db = (db1, Ok tt) ->
  insert_data a2 p2 db1 = (db2, Ok tt) ->
  insert_data (a1 ++ a2) (p1 ++ p2) db = (db2, Ok tt).
Proof.
  unfold insert_data. rewrite !insert_all_app. unfold rbind.
  destruct (insert_all asteroid_params a1 (asteroids db)) as [ta|e];
    [|discriminate].
  destruct (insert_all approach_params p1 (close_approach db)) as [tc|e];
    [|discriminate].
  intros E. injection E as <-. simpl.
  destruct (insert_all asteroid_params a2 ta) as [ta'|e]; [|discriminate].
  destruct (insert_all approach_params p2 tc) as [tc'|e]; [|discriminate].
  intros E. injection E as <-. reflexivity.
Qed.

(** X17: [create_tables] can be repeated and never loses data: after it
    both tables exist, the rows of a table that existed are unchanged, a
    new table is empty, and a second call changes nothing. *)
Theorem create_tables_keeps_rows db :
  asteroids (create_tables db) = Some (rows_of (asteroids db))
  /\ close_approach (create_tables db) = Some (rows_of (close_approach db))
  /\ create_tables (create_tables db) = create_tables db.
Proof.
  rewrite (create_tables_eq (create_tables db)), (create_tables_eq db).
  cbn [asteroids close_approach rows_of]. auto.
Qed.

Lemma bound_rows_keys {A} (params_of : A -> list value) (key : A -> Z)
    (records : list A) :
  (forall x, exists rest, params_of x = VInt (key x) :: rest) ->
  forallb (fun x => is_ok (bind_params (params_of x))) records = true ->
  map key_of (bound_rows params_of records)
  = map (fun x => Some (SqlInteger (key x))) records.
Proof.
  intros Hkey. induction records as [|x records IH]; simpl; intros H;
    [reflexivity|].
  apply andb_prop in H as [Hx H].
  rewrite map_app, IH by exact H. f_equal.
  destruct (Hkey x) as [rest E]. rewrite E in *.
  cbn [bind_params adapt rbind] in *.
  destruct ((- 2 ^ 63 <=? key x) && (key x <? 2 ^ 63));
    cbn [rbind is_ok] in *; [|discriminate].
  now destruct (bind_params rest).
Qed.

Lemma inserted_keys asteroid_batch approach_batch db db' :
  insert_data asteroid_batch approach_batch db = (db', Ok tt) ->
  map key_of (rows_of (asteroids db'))
  = (map key_of (rows_of (asteroids db))
     ++ map (fun z => Some (SqlInteger z)) (map id asteroid_batch))%list
  /\ map key_of (rows_of (close_approach db'))
     = (map key_of (rows_of (close_approach db))
        ++ map (fun z => Some (SqlInteger z))
             (map neo_reference_id approach_batch))%list.
Proof.
  intros E.
  destruct (insert_data_cases asteroid_batch approach_batch db)
    as [[Hok (db0 & E0 & Ra & Rc & _)]|[_ (e & E0)]];
    rewrite E0 in E; [|discriminate].
  injection E as <-.
  apply andb_prop in Hok as [Ha Hc].
  apply andb_prop in Ha as [_ Ha]. apply andb_prop in Hc as [_ Hc].
  rewrite Ra, Rc, !map_app, !map_map.
  split; f_equal.
  - apply (bound_rows_keys asteroid_params id); [|exact Ha].
    intros a. eexists. reflexivity.
  - apply (bound_rows_keys approach_params neo_reference_id); [|exact Hc].
    intros a. eexists. reflexivity.
Qed.

(** X18: what is written is what the join reads: after a successful
    [insert_data], the first column of the new rows of [asteroids] holds the
    [id] of the object records, the first column of the new rows of
    [close_approach] holds the [neo_reference_id] of the approach records,
    in batch order; so if the keys of the two tables agreed row by row
    before, and the batch is aligned, they still do. *)
Theorem insert_data_keeps_keys asteroid_batch approach_batch db db' :
  insert_data asteroid_batch approach_batch db = (db', Ok tt) ->
  map key_of (rows_of (asteroids db'))
  = (map key_of (rows_of (asteroids db))
     ++ map (fun a => Some (SqlInteger (id a))) asteroid_batch)%list
  /\ map key_of (rows_of (close_approach db'))
     = (map key_of (rows_of (close_approach db))
        ++ map (fun p => Some (SqlInteger (neo_reference_id p)))
             approach_batch)%list
  /\ (map id asteroid_batch = map neo_reference_id approach_batch ->
      map key_of (rows_of (asteroids db))
      = map key_of (rows_of (close_approach db)) ->
      map key_of (rows_of (asteroids db'))
      = map key_of (rows_of (close_approach db'))).
Proof.
  intros E. destruct (inserted_keys _ _ _ E) as [Ka Kc].
  rewrite !map_map in Ka, Kc.
  split; [exact Ka|]. split; [exact Kc|].
  intros Hal Hkeys. rewrite Ka, Kc, Hkeys. f_equal.
  rewrite <- (map_map id (fun z => Some (SqlInteger z))).
  rewrite <- (map_map neo_reference_id (fun z => Some (SqlInteger z))).
  now rewrite Hal.
Qed.

(** ** The whole pipeline *)

Lemma row_count_create_tables db :
  row_count (asteroids (create_tables db)) = row_count (asteroids db)
  /\ row_count (close_approach (create_tables db))
     = row_count (close_approach db).
Proof.
  unfold create_tables, create_if_not_exists, row_count.
  destruct (asteroids db), (close_approach db); simpl; auto.
Qed.

Lemma aligned_init : aligned init.
Proof. reflexivity. Qed.

(** What [collect_data] hands to [insert_data] when it starts from a new
    extractor. *)
Lemma collect_data_from_init net h :
  exists r,
    (forall fuel, (enough <= fuel)%nat -> collect_data fuel net init h = Some r)
    /\ forall objects events,
         returned r = Ok (objects, events) ->
         map id objects = map neo_reference_id events
         /\ (0 <= TARGET_RECORDS ->
             Z.of_nat (List.length objects) <= TARGET_RECORDS).
Proof.
  destruct (collect_loop_total net init h) as (r & n & Hr & _ & Hpost).
  destruct Hpost as (ps & Hself & _ & Hps & _).
  assert (Hal : aligned (trim (self_of r))).
  { apply aligned_trim. rewrite Hself. apply aligned_push; [reflexivity|exact Hps]. }
  destruct (returned r) as [vars|e] eqn:R.
  - eexists. split.
    + intros fuel Hf. unfold collect_data. rewrite (Hr fuel Hf), R. reflexivity.
    + cbn [returned]. intros objects events E. injection E as <- <-.
      split; [exact Hal|]. intros HT.
      unfold trim, slice_to. cbn [asteroid_data].
      destruct (0 <=? TARGET_RECORDS) eqn:E0; [|lia].
      rewrite length_firstn. lia.
  - eexists. split.
    + intros fuel Hf. unfold collect_data. rewrite (Hr fuel Hf), R. reflexivity.
    + cbn [returned]. discriminate.
Qed.

(** X19: [setup_database] comes to an end whatever the network answers,
    and what it does to the rows is all or nothing: either it raises and the
    store holds what it held, with both tables now existing, or it returns
    and each of the two tables has gained the same number of rows, at most
    the target count. *)
Theorem setup_database_all_or_nothing net db h :
  0 <= TARGET_RECORDS ->
  exists r,
    (forall fuel, (enough <= fuel)%nat ->
       setup_database fuel net db h = Some r)
    /\ ((exists e, outcome_of r = Raise e /\ store_of r = create_tables db)
        \/ (outcome_of r = Ok tt
            /\ exists n,
                 Z.of_nat n <= TARGET_RECORDS
                 /\ row_count (asteroids (store_of r))
                    = (row_count (asteroids db) + n)%nat
                 /\ row_count (close_approach (store_of r))
                    = (row_count (close_approach db) + n)%nat)).
Proof.
  intros HT.
  destruct (collect_data_from_init net h) as (r & Hr & Hbatch).
  destruct (returned r) as [[objects events]|e] eqn:R.
  - destruct (Hbatch objects events eq_refl) as [Hal Hlen].
    destruct (insert_data objects events (create_tables db))
      as [db2 [[]|e]] eqn:E.
    + exists {| store_of := db2; log_of := history_of r; outcome_of := Ok tt |}.
      split.
      * intros fuel Hf. unfold setup_database. now rewrite (Hr fuel Hf), R, E.
      * right. split; [reflexivity|]. exists (List.length objects).
        split; [auto|].
        destruct (insert_data_cases objects events (create_tables db))
          as [[_ (db0 & E0 & Ra & Rc & La & Lc & _)]|[_ (e & E0)]];
          rewrite E0 in E; [|discriminate].
        injection E as <-.
        destruct (row_count_create_tables db) as [Ka Kc].
        cbn [store_of].
        rewrite (row_count_rows_of (asteroids db0)), Ra.
        rewrite (row_count_rows_of (close_approach db0)), Rc.
        rewrite !length_app, La, Lc, <- !row_count_rows_of, Ka, Kc.
        apply (f_equal (@List.length Z)) in Hal. rewrite !length_map in Hal.
        split; [reflexivity|]. now rewrite Hal.
    + exists {| store_of := db2; log_of := history_of r; outcome_of := Raise e |}.
      split.
      * intros fuel Hf. unfold setup_database. now rewrite (Hr fuel Hf), R, E.
      * left. exists e. split; [reflexivity|]. cbn [store_of].
        destruct (insert_data_cases objects events (create_tables db))
          as [[_ (db0 & E0 & _)]|[_ (e0 & E0)]];
          rewrite E0 in E; [discriminate|].
        now injection E as <- _.
  - exists {| store_of := create_tables db; log_of := history_of r;
              outcome_of := Raise e |}.
    split.
    + intros fuel Hf. unfold setup_database. now rewrite (Hr fuel Hf), R.
    + left. exists e. auto.
Qed.

(** X20: the pipeline keeps the join keys of the two tables in step: if
    the first columns of [asteroids] and [close_approach] agreed row by row
    before [setup_database] (as in a new store), they agree row by row when
    it returns, so every stored approach row has an object row with its
    key. *)
Theorem setup_database_keeps_keys net db h :
  map key_of (rows_of (asteroids db))
  = map key_of (rows_of (close_approach db)) ->
  exists r,
    setup_database enough net db h = Some r
    /\ (outcome_of r = Ok tt ->
        map key_of (rows_of (asteroids (store_of r)))
        = map key_of (rows_of (close_approach (store_of r)))).
Proof.
  intros Hkeys.
  destruct (collect_data_from_init net h) as (r & Hr & Hbatch).
  unfold setup_database. rewrite (Hr enough (le_n _)).
  destruct (returned r) as [[objects events]|e] eqn:R.
  - destruct (Hbatch objects events eq_refl) as [Hal _].
    destruct (insert_data objects events (create_tables db))
      as [db2 [[]|e]] eqn:E; eexists; (split; [reflexivity|]);
      cbn [outcome_of store_of]; [|discriminate].
    intros _.
    destruct (inserted_keys _ _ _ E) as [Ka Kc].
    rewrite Ka, Kc, Hal, (create_tables_eq db).
    cbn [asteroids close_approach rows_of]. now rewrite Hkeys.
  - eexists. split; [reflexivity|]. cbn [outcome_of]. discriminate.
Qed.

(** ** Running the pipeline again *)

Lemma fetch_neo_data_by_url net self s e h1 h2 :
  answers_by_url net ->
  snd (fetch_neo_data net self s e h1) = snd (fetch_neo_data net self s e h2).
Proof.
  intros Hnet. unfold fetch_neo_data.
  rewrite (Hnet h1 h2). 
  destruct (net h2 (request_url self s e)) as [|r]; [reflexivity|].
  destruct (raise_for_status r); [reflexivity|].
  now destruct (json_body r).
Qed.

Lemma loop_body_by_url net vars self h1 h2 :
  answers_by_url net ->
  self_of (loop_body net vars self h1) = self_of (loop_body net vars self h2)
  /\ returned (loop_body net vars self h1)
     = returned (loop_body net vars self h2).
Proof.
  intros Hnet. unfold loop_body.
  pose proof (fetch_neo_data_by_url self (strftime (start_date vars))
                (strftime (add_days (start_date vars) 6)) h1 h2 Hnet) as Hp.
  destruct (fetch_neo_data net self (strftime (start_date vars))
              (strftime (add_days (start_date vars) 6)) h1) as [k1 page1].
  destruct (fetch_neo_data net self (strftime (start_date vars))
              (strftime (add_days (start_date vars) 6)) h2) as [k2 page2].
  simpl in Hp. subst page2.
  destruct (truthy page1); [|auto].
  now destruct (extract_asteroid_fields page1 self) as [self' [[]|e]].
Qed.

Lemma collect_loop_by_url net fuel :
  answers_by_url net ->
  forall vars self h1 h2,
    option_map (fun r => (self_of r, returned r))
               (collect_loop fuel net vars self h1)
    = option_map (fun r => (self_of r, returned r))
                 (collect_loop fuel net vars self h2).
Proof.
  intros Hnet. induction fuel as [|fuel IH]; intros vars self h1 h2;
    destruct (total_records vars <? TARGET_RECORDS) eqn:T.
  - now rewrite !collect_loop_out_of_fuel.
  - now rewrite !collect_loop_done.
  - rewrite !collect_loop_round by exact T.
    destruct (loop_body_by_url vars self h1 h2 Hnet) as [Hs Hr].
    rewrite <- Hr.
    destruct (returned (loop_body net vars self h1)) as [vars'|e] eqn:R.
    + destruct (year (start_date vars') >? 2025).
      * simpl. now rewrite Hs, <- Hr, R.
      * rewrite Hs. apply IH.
    + simpl. now rewrite Hs, <- Hr, R.
  - now rewrite !collect_loop_done.
Qed.

Lemma collect_data_by_url fuel net self h1 h2 :
  answers_by_url net ->
  option_map (fun r => returned r) (collect_data fuel net self h1)
  = option_map (fun r => returned r) (collect_data fuel net self h2).
Proof.
  intros Hnet.
  pose proof (collect_loop_by_url fuel Hnet initial_locals self h1 h2) as H.
  unfold collect_data.
  destruct (collect_loop fuel net initial_locals self h1) as [r1|];
    destruct (collect_loop fuel net initial_locals self h2) as [r2|];
    simpl in H; try discriminate; [|reflexivity].
  injection H as Hs Hr. rewrite Hs, Hr.
  now destruct (returned r2).
Qed.

(** X21: nothing in the pipeline looks at what the store already holds.
    Against a feed that answers each request the same way every time, a
    second [setup_database] after a successful one (with the same bound on
    the rounds) succeeds too and writes the very same rows again: each
    table then holds what it held at first, followed by the rows of the
    batch twice. *)
Theorem setup_database_twice fuel net db h first :
  answers_by_url net ->
  setup_database fuel net db h = Some first ->
  outcome_of first = Ok tt ->
  exists second rows_a rows_c,
    setup_database fuel net (store_of first) (log_of first) = Some second
    /\ outcome_of second = Ok tt
    /\ rows_of (asteroids (store_of first))
       = (rows_of (asteroids db) ++ rows_a)%list
    /\ rows_of (close_approach (store_of first))
       = (rows_of (close_approach db) ++ rows_c)%list
    /\ rows_of (asteroids (store_of second))
       = (rows_of (asteroids db) ++ rows_a ++ rows_a)%list
    /\ rows_of (close_approach (store_of second))
       = (rows_of (close_approach db) ++ rows_c ++ rows_c)%list.
Proof.
  intros Hnet Hfirst Hok.
  unfold setup_database in Hfirst.
  pose proof (collect_data_by_url fuel init h (log_of first) Hnet) as Hsame.
  destruct (collect_data fuel net init h) as [r1|] eqn:C1; [|discriminate].
  destruct (returned r1) as [[objects events]|e] eqn:R1.
  2:{ injection Hfirst as <-. discriminate. }
  destruct (insert_data objects events (create_tables db)) as [db1 res] eqn:I1.
  injection Hfirst as <-. cbn [outcome_of store_of log_of] in *. subst res.
  destruct (insert_data_cases objects events (create_tables db))
    as [[Hbind (db0 & E0 & Ra & Rc & _)]|[_ (e0 & E0)]];
    rewrite E0 in I1; [|discriminate].
  injection I1 as <-.
  rewrite (create_tables_eq db) in Ra, Rc.
  cbn [asteroids close_approach rows_of] in Ra, Rc.
  apply andb_prop in Hbind as [Ha Hc].
  apply andb_prop in Ha as [_ Ha]. apply andb_prop in Hc as [_ Hc].
  pose proof (create_tables_eq db0) as Hdb1.
  unfold setup_database.
  destruct (collect_data fuel net init (history_of r1)) as [r2|] eqn:C2;
    [|discriminate].
  cbn [option_map] in Hsame. injection Hsame as Hsame.
  rewrite <- Hsame, R1, Hdb1.
  rewrite (insert_data_spec objects events _ _ Ha Hc).
  eexists. exists (bound_rows asteroid_params objects),
    (bound_rows approach_params events).
  split; [reflexivity|]. cbn [outcome_of store_of asteroids close_approach rows_of].
  split; [reflexivity|]. split; [exact Ra|]. split; [exact Rc|].
  rewrite Ra, Rc, <- !app_assoc. auto.
Qed.

End Properties.

(** * The scenarios of the specification, on the concrete instance *)

Module Scenarios.

Import Sample.

(** ** The two-day scenario *)

Example two_day_page_run :
  valid_page two_day_page = true
  /\ objects_of two_day_page = [the_object]
  /\ close_approaches the_object
     = [approach_on "2024-01-01"; approach_on "2024-01-02"]
  /\ map id (asteroid_data two_day_batch) = [2465633; 2465633]
  /\ map neo_reference_id (approach_data two_day_batch) = [2465633; 2465633].
Proof. repeat split; reflexivity. Qed.

(** C1, as stated, fails on the two-day page: its single object, with two
    close approaches, leaves two object records, not one. *)
Lemma two_day_page_appends_two_objects :
  valid_page two_day_page = true
  /\ objects_of two_day_page = [the_object]
  /\ List.length (close_approaches the_object) = 2%nat
  /\ List.length (asteroid_data two_day_batch) = 2%nat
  /\ ~ appends_one_object_two_events two_day_page.
Proof.
  repeat split; try reflexivity.
  intros H. destruct (H init) as (self' & E & Hlen & _).
  assert (E' : extract_asteroid_fields two_day_page init = (two_day_batch, Ok tt))
    by reflexivity.
  rewrite E' in E. injection E as <-.
  change (2 = 1)%nat in Hlen. discriminate.
Qed.

Lemma extract_one_object_two_approaches_witness :
  exists self' info p1 p2,
    extract_asteroid_fields two_day_page init = (self', Ok tt)
    /\ asteroid_info_of the_object = Ok info
    /\ approach_info_of the_object (approach_on "2024-01-01") = Ok p1
    /\ approach_info_of the_object (approach_on "2024-01-02") = Ok p2
    /\ asteroid_data self' = (asteroid_data init ++ [info; info])%list
    /\ approach_data self' = (approach_data init ++ [p1; p2])%list
    /\ neo_reference_id p1 = id info
    /\ neo_reference_id p2 = id info.
Proof.
  apply (extract_one_object_two_approaches two_day_page init
           (asteroid := the_object)
           (c1 := approach_on "2024-01-01") (c2 := approach_on "2024-01-02"));
    reflexivity.
Defined.

Lemma extract_approach_count_witness :
  valid_page two_day_page = true
  /\ exists self',
       extract_asteroid_fields two_day_page init = (self', Ok tt)
       /\ List.length (approach_data self')
          = (List.length (approach_data init) + approach_count two_day_page)%nat.
Proof.
  split; [reflexivity|].
  apply (extract_approach_count two_day_page init). reflexivity.
Defined.

Lemma extract_diameters_pass_through_witness :
  exists new,
    asteroid_data two_day_batch = (asteroid_data init ++ new)%list
    /\ forall info, In info new ->
       exists asteroid,
         In asteroid (objects_of two_day_page)
         /\ float_at asteroid diameter_min_path
            = Ok (estimated_diameter_min_km info)
         /\ float_at asteroid diameter_max_path
            = Ok (estimated_diameter_max_km info)
         /\ (forall lo hi,
               getpath asteroid diameter_min_path = Ok (VFloat lo) ->
               getpath asteroid diameter_max_path = Ok (VFloat hi) ->
               estimated_diameter_min_km info = lo
               /\ estimated_diameter_max_km info = hi)
         /\ (forall lo hi,
               float_at asteroid diameter_min_path = Ok lo ->
               float_at asteroid diameter_max_path = Ok hi ->
               float_le lo hi ->
               float_le (estimated_diameter_min_km info)
                        (estimated_diameter_max_km info)).
Proof.
  apply (extract_diameters_pass_through two_day_page init (r := Ok tt)).
  reflexivity.
Defined.

(** ** A window that fails once *)

(** C2, as stated, fails when the first fetch fails: after the long delay
    the driver asks for 2024-01-08 to 2024-01-14, not again for 2024-01-01
    to 2024-01-07, which is never fetched. *)
Lemma failed_window_is_not_retried :
  exists r,
    collect_data enough fails_once init [] = Some r
    /\ fails_once [] (window_url init 0) = RequestFailed
    /\ firstn 3 (history_of r)
       = [ Get "https://api.nasa.gov/neo/rest/v1/feed?start_date=2024-01-01&end_date=2024-01-07&api_key=DEMO_KEY";
           Sleep 5;
           Get "https://api.nasa.gov/neo/rest/v1/feed?start_date=2024-01-08&end_date=2024-01-14&api_key=DEMO_KEY" ]
    /\ ~ retries_same_window (history_of r).
Proof.
  eexists. split; [reflexivity|]. split; [reflexivity|].
  split; [reflexivity|].
  intros H.
  specialize (H [] (window_url init 0) (window_url init 1)
                [Sleep 1; Get (window_url init 2); Sleep 1] eq_refl).
  vm_compute in H. discriminate.
Qed.

Example fails_once_run :
  option_map (fun r => (requests (history_of r),
                        List.length (asteroid_data (self_of r)),
                        List.length (approach_data (self_of r))))
             (collect_data enough fails_once init [])
  = Some ([window_url init 0; window_url init 1; window_url init 2],
          3%nat, 3%nat).
Proof. vm_compute. reflexivity. Qed.

(** ** A network that never answers *)

Example all_fail_run :
  option_map (fun r => (List.length (requests (history_of r)),
                        is_ok (returned r),
                        List.length (asteroid_data (self_of r))))
             (collect_data enough all_fail init [])
  = Some (105%nat, true, 0%nat).
Proof. vm_compute. reflexivity. Qed.

Example all_fail_needs_all_the_fuel :
  match collect_data 104 all_fail init [] with
  | Some _ => true
  | None => false
  end = false.
Proof. vm_compute. reflexivity. Qed.

Lemma collect_data_target_witness :
  exists loop_end vars objects events,
    collect_loop enough flaky_feed initial_locals init [] = Some loop_end
    /\ returned loop_end = Ok vars
    /\ collect_data enough flaky_feed init []
       = Some {| history_of := history_of loop_end;
                 self_of := trim (self_of loop_end);
                 returned := Ok (objects, events) |}
    /\ (TARGET_RECORDS <= Z.of_nat (List.length (asteroid_data (self_of loop_end))) ->
        Z.of_nat (List.length objects) = TARGET_RECORDS)
    /\ (Z.of_nat (List.length (asteroid_data (self_of loop_end))) < TARGET_RECORDS ->
        2025 < year (start_date vars)
        /\ Z.of_nat (List.length objects) < TARGET_RECORDS
        /\ trim (self_of loop_end) = self_of loop_end).
Proof.
  apply (collect_data_target (net := flaky_feed) (self := init) []).
  - apply Z.leb_le. reflexivity.
  - intros h url r page H1 H2 H3 H4. unfold flaky_feed in H1.
    destruct h as [|e1 [|e2 [|e3 h]]]; injection H1 as <-;
      cbn [json_body] in H3; injection H3 as <-;
      try reflexivity; discriminate.
  - reflexivity.
Defined.

Example flaky_feed_run :
  option_map (fun r => (requests (history_of r),
                        slept (history_of r),
                        is_ok (returned r),
                        List.length (asteroid_data (self_of r))))
             (collect_data enough flaky_feed init [])
  = Some ([window_url init 0; window_url init 1; window_url init 2;
           window_url init 3],
          12, true, 3%nat).
Proof. vm_compute. reflexivity. Qed.

(** A feed of error responses with JSON bodies is a run that ends at the
    ceiling with no record: 105 requests, nothing accumulated. *)
Example over_rate_limit_run :
  option_map (fun r => (List.length (requests (history_of r)),
                        is_ok (returned r),
                        List.length (asteroid_data (self_of r))))
             (collect_data enough over_rate_limit init [])
  = Some (105%nat, true, 0%nat).
Proof. vm_compute. reflexivity. Qed.

(** Feeds of failed fetches are within the hypothesis of the target
    property: error responses with a JSON body, and empty bodies. *)
Example failed_fetches_are_admitted :
  normalises_valid_pages over_rate_limit
  /\ normalises_valid_pages serves_empty_object
  /\ normalises_valid_pages all_fail.
Proof.
  repeat split; intros h url r page H1 H2 H3 H4.
  - unfold over_rate_limit in H1. injection H1 as <-. discriminate.
  - unfold serves_empty_object in H1. injection H1 as <-.
    cbn [json_body] in H3. injection H3 as <-. discriminate.
  - discriminate.
Qed.

Lemma collect_data_referential_witness :
  exists r,
    collect_data enough fails_once init [] = Some r
    /\ forall objects events,
         returned r = Ok (objects, events) ->
         map id objects = map neo_reference_id events
         /\ forall event, In event events ->
              exists object,
                In object objects /\ id object = neo_reference_id event.
Proof.
  apply (collect_data_referential fails_once (self := init) []). reflexivity.
Defined.

(** ** A malformed page *)


(** ** A response outside 2xx that carries a body *)

(** C7, as stated, fails on a 300 response with a parseable body:
    [raise_for_status] only raises from 400 to 599, so the body is returned. *)
Lemma non_2xx_body_is_returned :
  multiple_choices [] (request_url init "2024-01-01" "2024-01-07")
  = Responded {| status_code := 300; json_body := Some two_day_page |}
  /\ snd (fetch_neo_data multiple_choices init "2024-01-01" "2024-01-07" [])
     = two_day_page
  /\ ~ null_on_every_non_2xx multiple_choices.
Proof.
  split; [reflexivity|]. split; [reflexivity|].
  intros H.
  specialize (H init "2024-01-01" "2024-01-07" [] _ eq_refl).
  assert (Hs : ~ (200 <= 300 < 300)) by lia.
  specialize (H Hs).
  change (two_day_page = VNone) in H. unfold two_day_page in H. discriminate.
Qed.

(** ** Writing the two-day batch twice *)

Lemma insert_data_twice_doubles_witness :
  exists db1 db2,
    insert_data (asteroid_data two_day_batch) (approach_data two_day_batch)
      (create_tables empty_store) = (db1, Ok tt)
    /\ insert_data (asteroid_data two_day_batch) (approach_data two_day_batch)
         db1 = (db2, Ok tt)
    /\ asteroids db2
       = Some (rows_of (asteroids empty_store)
               ++ bound_rows asteroid_params (asteroid_data two_day_batch)
               ++ bound_rows asteroid_params (asteroid_data two_day_batch))%list
    /\ close_approach db2
       = Some (rows_of (close_approach empty_store)
               ++ bound_rows approach_params (approach_data two_day_batch)
               ++ bound_rows approach_params (approach_data two_day_batch))%list
    /\ row_count (asteroids db2)
       = (row_count (asteroids empty_store)
          + 2 * List.length (asteroid_data two_day_batch))%nat
    /\ row_count (close_approach db2)
       = (row_count (close_approach empty_store)
          + 2 * List.length (approach_data two_day_batch))%nat.
Proof.
  apply (insert_data_twice_doubles empty_store
           (asteroid_data two_day_batch) (approach_data two_day_batch));
    reflexivity.
Defined.

Example two_day_batch_written_twice :
  match insert_data (asteroid_data two_day_batch) (approach_data two_day_batch)
          (create_tables empty_store) with
  | (db1, Ok _) =>
      match insert_data (asteroid_data two_day_batch)
              (approach_data two_day_batch) db1 with
      | (db2, Ok _) =>
          (row_count (asteroids db2), row_count (close_approach db2))
      | _ => (O, O)
      end
  | _ => (O, O)
  end = (4%nat, 4%nat).
Proof. vm_compute. reflexivity. Qed.

(** ** Further scenarios *)

Lemma extract_keeps_page_order_witness :
  exists pairs,
    extract_asteroid_fields two_day_page init = (push init pairs, Ok tt)
    /\ Forall2 (fun entry p =>
                  asteroid_info_of (fst entry) = Ok (fst p)
                  /\ approach_info_of (fst entry) (snd entry) = Ok (snd p))
         (approach_entries two_day_page) pairs.
Proof. apply (extract_keeps_page_order two_day_page init). reflexivity. Defined.

Lemma object_without_approaches_witness :
  close_approach_list object_never_seen = Ok []
  /\ asteroid_fields_ok object_never_seen = true
  /\ asteroid_body object_never_seen two_day_batch = (two_day_batch, Ok tt).
Proof.
  split; [reflexivity|]. split; [reflexivity|].
  apply (object_without_approaches object_never_seen two_day_batch);
    reflexivity.
Defined.

Example absolute_magnitude_absent :
  exists info,
    asteroid_info_of object_without_magnitude = Ok info
    /\ absolute_magnitude_h info = 0%Q.
Proof. eexists. split; reflexivity. Qed.

Lemma date_body_stops_at_first_malformed_witness :
  exists e,
    date_body mixed_date init
    = (push init (flat_map (fun a => fst (asteroid_out a)) [the_object]),
       Raise e)
    /\ List.length (flat_map (fun a => fst (asteroid_out a)) [the_object])
       = list_sum (map (fun a => List.length (close_approaches a))
                       [the_object]).
Proof.
  apply (date_body_stops_at_first_malformed mixed_date
           [the_object] object_without_diameter [the_object] init);
    reflexivity.
Defined.

Lemma falsy_body_is_a_failed_fetch_witness :
  loop_body serves_empty_object initial_locals init []
  = {| history_of :=
         ([] ++ [Get (request_url init
                        (strftime (start_date initial_locals))
                        (strftime (add_days (start_date initial_locals) 6)));
                 Sleep 5])%list;
       self_of := init;
       returned := Ok {| start_date := add_days (start_date initial_locals) 7;
                         total_records := total_records initial_locals |} |}.
Proof.
  apply (falsy_body_is_a_failed_fetch serves_empty_object initial_locals
           init [] (r := {| status_code := 200; json_body := Some (VDict []) |})
           (body := VDict []));
    reflexivity.
Defined.

Lemma collect_data_without_target_witness :
  @collect_data builtins no_target 0 all_fail (@init builtins no_target) []
  = Some {| history_of := []; self_of := @init builtins no_target;
            returned := Ok ([], []) |}.
Proof.
  apply (@collect_data_without_target builtins no_target 0%nat all_fail
           (@init builtins no_target) []).
  apply Z.leb_le. reflexivity.
Defined.

Lemma collect_data_when_nothing_is_served_witness :
  exists r,
    collect_data enough all_fail init [] = Some r
    /\ requests (history_of r)
       = (requests [] ++ map (window_url init) (seq 0 105))%list
    /\ slept (history_of r) = slept [] + 525
    /\ self_of r = trim init
    /\ returned r = Ok (asteroid_data (trim init), approach_data (trim init)).
Proof.
  apply (collect_data_when_nothing_is_served (net := all_fail) init []).
  - reflexivity.
  - intros self s e h. reflexivity.
Defined.

Lemma collect_data_again_witness :
  Z.of_nat (List.length (asteroid_data full_extractor)) = TARGET_RECORDS
  /\ exists r,
       collect_data enough fails_once full_extractor [] = Some r
       /\ forall objects events,
            returned r = Ok (objects, events) ->
            objects = asteroid_data full_extractor
            /\ events = approach_data full_extractor.
Proof.
  split; [reflexivity|].
  apply (collect_data_again fails_once full_extractor []); reflexivity.
Defined.

Lemma collect_data_at_most_target_witness :
  exists r,
    collect_data enough always_two_day_page init [] = Some r
    /\ forall objects events,
         returned r = Ok (objects, events) ->
         List.length objects = List.length events
         /\ Z.of_nat (List.length objects) <= TARGET_RECORDS.
Proof.
  apply (collect_data_at_most_target always_two_day_page init []).
  - apply Z.leb_le. reflexivity.
  - reflexivity.
Defined.

Lemma insert_data_appends_witness :
  rows_of (asteroids store_once)
  = (rows_of (asteroids (create_tables empty_store))
     ++ bound_rows asteroid_params (asteroid_data two_day_batch))%list
  /\ rows_of (close_approach store_once)
     = (rows_of (close_approach (create_tables empty_store))
        ++ bound_rows approach_params (approach_data two_day_batch))%list
  /\ row_count (asteroids store_once)
     = (row_count (asteroids (create_tables empty_store))
        + List.length (asteroid_data two_day_batch))%nat
  /\ row_count (close_approach store_once)
     = (row_count (close_approach (create_tables empty_store))
        + List.length (approach_data two_day_batch))%nat
  /\ (asteroids (create_tables empty_store) = None
      <-> asteroids store_once = None)
  /\ (close_approach (create_tables empty_store) = None
      <-> close_approach store_once = None).
Proof.
  apply (insert_data_appends (asteroid_data two_day_batch)
           (approach_data two_day_batch) (create_tables empty_store)).
  reflexivity.
Defined.

Lemma insert_data_in_two_batches_witness :
  insert_data (asteroid_data two_day_batch ++ asteroid_data two_day_batch)
    (approach_data two_day_batch ++ approach_data two_day_batch)
    (create_tables empty_store)
  = (store_twice, Ok tt).
Proof.
  apply (insert_data_in_two_batches
           (asteroid_data two_day_batch) (approach_data two_day_batch)
           (asteroid_data two_day_batch) (approach_data two_day_batch)
           (create_tables empty_store) (db1 := store_once));
    reflexivity.
Defined.

Lemma insert_data_keeps_keys_witness :
  map key_of (rows_of (asteroids store_once))
  = (map key_of (rows_of (asteroids (create_tables empty_store)))
     ++ map (fun a => Some (SqlInteger (id a)))
          (asteroid_data two_day_batch))%list
  /\ map key_of (rows_of (close_approach store_once))
     = (map key_of (rows_of (close_approach (create_tables empty_store)))
        ++ map (fun p => Some (SqlInteger (neo_reference_id p)))
             (approach_data two_day_batch))%list
  /\ (map id (asteroid_data two_day_batch)
      = map neo_reference_id (approach_data two_day_batch) ->
      map key_of (rows_of (asteroids (create_tables empty_store)))
      = map key_of (rows_of (close_approach (create_tables empty_store))) ->
      map key_of (rows_of (asteroids store_once))
      = map key_of (rows_of (close_approach store_once))).
Proof.
  apply (insert_data_keeps_keys (asteroid_data two_day_batch)
           (approach_data two_day_batch) (create_tables empty_store)).
  reflexivity.
Defined.

Example stored_keys_of_the_two_day_batch :
  map key_of (rows_of (asteroids store_once))
  = [Some (SqlInteger 2465633); Some (SqlInteger 2465633)]
  /\ map key_of (rows_of (close_approach store_once))
     = [Some (SqlInteger 2465633); Some (SqlInteger 2465633)].
Proof. split; reflexivity. Qed.

Lemma setup_database_all_or_nothing_witness :
  exists r,
    (forall fuel, (enough <= fuel)%nat ->
       setup_database fuel always_two_day_page empty_store [] = Some r)
    /\ ((exists e,
           outcome_of r = Raise e /\ store_of r = create_tables empty_store)
        \/ (outcome_of r = Ok tt
            /\ exists n,
                 Z.of_nat n <= TARGET_RECORDS
                 /\ row_count (asteroids (store_of r))
                    = (row_count (asteroids empty_store) + n)%nat
                 /\ row_count (close_approach (store_of r))
                    = (row_count (close_approach empty_store) + n)%nat)).
Proof.
  apply (setup_database_all_or_nothing always_two_day_page empty_store []).
  apply Z.leb_le. reflexivity.
Defined.

Example setup_database_run :
  option_map (fun r => (is_ok (outcome_of r),
                        row_count (asteroids (store_of r)),
                        row_count (close_approach (store_of r)),
                        List.length (requests (log_of r))))
             (setup_database enough always_two_day_page empty_store [])
  = Some (true, 3%nat, 3%nat, 2%nat).
Proof. vm_compute. reflexivity. Qed.

Example setup_database_aborted :
  option_map (fun r => (is_ok (outcome_of r),
                        row_count (asteroids (store_of r)),
                        row_count (close_approach (store_of r)),
                        List.length (requests (log_of r))))
             (setup_database enough always_malformed empty_store [])
  = Some (false, 0%nat, 0%nat, 1%nat).
Proof. vm_compute. reflexivity. Qed.

Lemma setup_database_keeps_keys_witness :
  exists r,
    setup_database enough always_two_day_page empty_store [] = Some r
    /\ (outcome_of r = Ok tt ->
        map key_of (rows_of (asteroids (store_of r)))
        = map key_of (rows_of (close_approach (store_of r)))).
Proof.
  apply (setup_database_keeps_keys always_two_day_page empty_store []).
  reflexivity.
Defined.

Lemma setup_database_twice_witness :
  exists second rows_a rows_c,
    setup_database enough always_two_day_page (store_of first_setup)
      (log_of first_setup) = Some second
    /\ outcome_of second = Ok tt
    /\ rows_of (asteroids (store_of first_setup))
       = (rows_of (asteroids empty_store) ++ rows_a)%list
    /\ rows_of (close_approach (store_of first_setup))
       = (rows_of (close_approach empty_store) ++ rows_c)%list
    /\ rows_of (asteroids (store_of second))
       = (rows_of (asteroids empty_store) ++ rows_a ++ rows_a)%list
    /\ rows_of (close_approach (store_of second))
       = (rows_of (close_approach empty_store) ++ rows_c ++ rows_c)%list.
Proof.
  apply (setup_database_twice enough (net := always_two_day_page)
           empty_store [] (first := first_setup)).
  - intros h1 h2 url. reflexivity.
  - reflexivity.
  - reflexivity.
Defined.

Example setup_database_twice_counts :
  option_map (fun r => (row_count (asteroids (store_of r)),
                        row_count (close_approach (store_of r))))
             (setup_database enough always_two_day_page (store_of first_setup)
                (log_of first_setup))
  = Some (6%nat, 6%nat).
Proof. vm_compute. reflexivity. Qed.

End Scenarios.
